(** * Idea-to-life: the generation client's clean-up and the creation store

  A shallow embedding of the parts of the application that carry its
  contract: the post-processing of the remote model's answer in
  [services/gemini] ([bringToLife], [updateCode]) and the history
  handling of [App.tsx] ([handleGenerate], [handleUpdate],
  [handleDeleteCreation], [handleImportFile], the save effect), with
  [handleExport] of the live preview.

  JavaScript strings are sequences of UTF-16 code units; the regular
  expressions of the source have no [u] flag and therefore work on code
  units as well.  The type annotations of the source are not checked at
  run time: what an imported or stored document puts into a record is
  kept as the value it is, and each use follows what JavaScript does
  with such a value. *)

From Stdlib Require Import List NArith ZArith Bool Lia String Ascii Floats.
Import ListNotations.

Set Implicit Arguments.
Set Warnings "-register-all".
Open Scope list_scope.

(* ================================================================== *)
(** ** JavaScript strings *)

Module JsString.

Definition jsstring := list N.

(** An ASCII literal of the source, as code units. *)
Fixpoint lit (s : string) : jsstring :=
  match s with
  | EmptyString => []
  | String c r => N_of_ascii c :: lit r
  end.

(** [a === b] on strings. *)
Fixpoint eqb (a b : jsstring) : bool :=
  match a, b with
  | [], [] => true
  | x :: a', y :: b' => N.eqb x y && eqb a' b'
  | _, _ => false
  end.

(** ToBoolean on a string: only the empty string is falsy. *)
Definition truthy (s : jsstring) : bool :=
  match s with [] => false | _ :: _ => true end.

(** ToBoolean on [string | undefined] (or [string | null]). *)
Definition truthy_opt (o : option jsstring) : bool :=
  match o with Some s => truthy s | None => false end.

(** [a || b] where [a : string | undefined]. *)
Definition or_else (a : option jsstring) (b : jsstring) : jsstring :=
  match a with
  | Some ((_ :: _) as s) => s
  | _ => b
  end.

Fixpoint starts_with (p s : jsstring) : bool :=
  match p, s with
  | [], _ => true
  | c :: p', x :: s' => N.eqb x c && starts_with p' s'
  | _ :: _, [] => false
  end.

Definition ends_with (p s : jsstring) : bool :=
  starts_with (rev p) (rev s).

(** [hay.includes(needle)]. *)
Fixpoint includes (needle hay : jsstring) : bool :=
  starts_with needle hay ||
  match hay with
  | [] => false
  | _ :: hay' => includes needle hay'
  end.

End JsString.
Import JsString.

(* ================================================================== *)
(** ** The regular expressions of the clean-up

  The three patterns of the source, [/^```html\s*/], [/^```\s*/] and
  [/```$/], are built from four kinds of atoms.  [match_here] is the
  backtracking matcher at one position ([\s*] is greedy); [search] is the
  left-to-right scan of [String.prototype.replace] with a regular
  expression that has no [g] flag, which replaces the leftmost match
  only. *)

Module Regex.

Inductive atom : Type :=
| Bol                (* ^  (no m flag: start of input only) *)
| Eol                (* $  (no m flag: end of input only)   *)
| Chr (c : N)        (* a literal code unit                 *)
| WsStar.            (* \s*                                 *)

Definition regex := list atom.

(** The class [\s] of ECMAScript: WhiteSpace and LineTerminator. *)
Definition is_space (n : N) : bool :=
  (N.eqb n 9 || N.eqb n 10 || N.eqb n 11 || N.eqb n 12 || N.eqb n 13
   || N.eqb n 32 || N.eqb n 160 || N.eqb n 5760
   || (N.leb 8192 n && N.leb n 8202)
   || N.eqb n 8232 || N.eqb n 8233 || N.eqb n 8239 || N.eqb n 8287
   || N.eqb n 12288 || N.eqb n 65279)%bool%N.

(** [match_here re at_start s]: the input left after the leftmost-greedy
    match of [re] at the current position, if there is one. *)
Fixpoint match_here (re : regex) (at_start : bool) (s : jsstring)
  {struct re} : option jsstring :=
  match re with
  | [] => Some s
  | Bol :: re' => if at_start then match_here re' at_start s else None
  | Eol :: re' =>
      match s with
      | [] => match_here re' at_start s
      | _ :: _ => None
      end
  | Chr c :: re' =>
      match s with
      | x :: s' => if N.eqb x c then match_here re' false s' else None
      | [] => None
      end
  | WsStar :: re' =>
      (fix star (s : jsstring) (at_start : bool) {struct s}
         : option jsstring :=
         match s with
         | x :: s' =>
             if is_space x then
               match star s' false with
               | Some r => Some r
               | None => match_here re' at_start s
               end
             else match_here re' at_start s
         | [] => match_here re' at_start s
         end) s at_start
  end.

(** The leftmost match: the text before it and the text after it. *)
Fixpoint search (re : regex) (at_start : bool) (s : jsstring)
  : option (jsstring * jsstring) :=
  match match_here re at_start s with
  | Some rest => Some ([], rest)
  | None =>
      match s with
      | [] => None
      | x :: s' =>
          match search re false s' with
          | Some (pre, rest) => Some (x :: pre, rest)
          | None => None
          end
      end
  end.

(** [s.replace(re, repl)] for a pattern without the [g] flag and a
    replacement text without [$]. *)
Definition replace (re : regex) (repl s : jsstring) : jsstring :=
  match search re true s with
  | Some (pre, rest) => pre ++ repl ++ rest
  | None => s
  end.

Definition chars (l : jsstring) : regex := map Chr l.

End Regex.
Import Regex.

(* ================================================================== *)
(** ** JSON values

    What [JSON.parse] yields: numbers are binary64 floats, an object is
    the list of its own properties.  A value of type [option json] is a
    JavaScript value of the application, [None] standing for
    [undefined]. *)

Module Json.

Inductive json : Type :=
| JNull
| JBool (b : bool)
| JNum (f : PrimFloat.float)
| JStr (s : jsstring)
| JArr (items : list json)
| JObj (fields : list (jsstring * json)).

Fixpoint lookup (k : jsstring) (fields : list (jsstring * json))
  : option json :=
  match fields with
  | [] => None
  | (k', v) :: rest => if JsString.eqb k' k then Some v else lookup k rest
  end.

(** A string as a value. *)
Definition str (s : jsstring) : option json := Some (JStr s).

(** ToBoolean. [None] stands for [undefined]. *)
Definition truthy_json (v : option json) : bool :=
  match v with
  | None => false
  | Some JNull => false
  | Some (JBool b) => b
  | Some (JNum f) =>
      negb (PrimFloat.eqb f PrimFloat.zero) && PrimFloat.eqb f f
  | Some (JStr s) => truthy s
  | Some (JArr _) => true
  | Some (JObj _) => true
  end.

(** [v.k] for one of the keys the application reads ([html], [name],
    [id], [timestamp], [originalImage]): booleans, numbers, strings and
    arrays have no such property, reading a property of [null] throws a
    TypeError (the outer [None]). *)
Definition prop (v : json) (k : jsstring) : option (option json) :=
  match v with
  | JNull => None
  | JObj fields => Some (lookup k fields)
  | _ => Some None
  end.

(** The value of an own property of a document, if the document is an
    object that has it. *)
Definition field (v : json) (k : jsstring) : option json :=
  match v with
  | JObj fields => lookup k fields
  | _ => None
  end.

(** The document has no non-empty [k]: the property is missing, or it is
    the empty string or another falsy value ([null], [false], [0]). *)
Definition lacks_nonempty (v : json) (k : jsstring) : Prop :=
  truthy_json (field v k) = false.

(** [a === b] where the two are not one and the same object: undefined,
    null, booleans, numbers and strings are compared by value (NaN differs
    from itself, the two zeros are equal); an array or an object is equal
    to itself only, and the operands here never are the same object (one
    of them is a string, or comes out of a [JSON.parse] of its own). *)
Definition strict_eq (a b : option json) : bool :=
  match a, b with
  | None, None => true
  | Some JNull, Some JNull => true
  | Some (JBool x), Some (JBool y) => Bool.eqb x y
  | Some (JNum x), Some (JNum y) => PrimFloat.eqb x y
  | Some (JStr x), Some (JStr y) => JsString.eqb x y
  | _, _ => false
  end.

(** ToString on a parsed value, as a template literal applies it.
    [numberToString] is Number::toString of the platform.  An array is
    its elements joined by commas, [null] elements as empty strings.  An
    object that has an own property [toString] cannot be converted (the
    property holds no function, and [valueOf] returns the object): a
    TypeError, the [None]; any other object reads "[object Object]". *)
Fixpoint toString (numberToString : PrimFloat.float -> jsstring) (v : json)
  {struct v} : option jsstring :=
  match v with
  | JNull => Some (lit "null")
  | JBool true => Some (lit "true")
  | JBool false => Some (lit "false")
  | JNum f => Some (numberToString f)
  | JStr s => Some s
  | JArr items =>
      (fix join (l : list json) {struct l} : option jsstring :=
         match l with
         | [] => Some []
         | x :: rest =>
             match match x with
                   | JNull => Some []
                   | _ => toString numberToString x
                   end with
             | None => None
             | Some t =>
                 match rest with
                 | [] => Some t
                 | _ :: _ =>
                     match join rest with
                     | Some r => Some (t ++ lit "," ++ r)
                     | None => None
                     end
                 end
             end
         end) items
  | JObj fields =>
      match lookup (lit "toString") fields with
      | Some _ => None
      | None => Some (lit "[object Object]")
      end
  end.

(** The same on a value that may be [undefined]. *)
Definition toString_value (numberToString : PrimFloat.float -> jsstring)
  (v : option json) : option jsstring :=
  match v with
  | None => Some (lit "undefined")
  | Some x => toString numberToString x
  end.

End Json.
Import Json.
(* ================================================================== *)
(** ** services/gemini *)

Module Gemini.

Definition fence : jsstring := lit "```".
Definition fence_html : jsstring := lit "```html".

Definition re_open_html : regex := Bol :: chars fence_html ++ [WsStar].
Definition re_open      : regex := Bol :: chars fence ++ [WsStar].
Definition re_close     : regex := chars fence ++ [Eol].

(** [text.replace(/^```html\s*/, '').replace(/^```\s*/, '')
        .replace(/```$/, '')], the same in [bringToLife] and
    [updateCode]. *)
Definition cleanup (text : jsstring) : jsstring :=
  replace re_close [] (replace re_open [] (replace re_open_html [] text)).

(** What [services/gemini] sends and receives.  The remote call
    [ai.models.generateContent] is the environment: it either throws or
    answers with a [text] that is a string or [undefined]. *)

Record js_error : Type := {
  message : jsstring;      (* error.message    *)
  rendering : jsstring     (* error.toString() *)
}.

Inductive outcome (A : Type) : Type :=
| Returns (a : A)
| Throws (e : js_error).
Arguments Returns {A} a.
Arguments Throws {A} e.

Inductive instruction : Type :=
| SYSTEM_INSTRUCTION
| UPDATE_SYSTEM_INSTRUCTION.

Inductive part : Type :=
| TextPart (text : jsstring)
| InlineData (data mimeType : jsstring)
| ValuePart (text : option json).   (* { text: v } for a v that is no string *)

Record request : Type := {
  contents : list part;
  systemInstruction : instruction
}.

Definition remote : Type := jsstring -> request -> outcome (option jsstring).

Definition API_KEY_MISSING : js_error :=
  {| message := lit "API_KEY_MISSING";
     rendering := lit "Error: API_KEY_MISSING" |}.

(** [getGenAIClient]: the key read from [localStorage], or the throw. *)
Definition getGenAIClient (apiKey : option jsstring) : outcome jsstring :=
  match apiKey with
  | Some ((_ :: _) as k) => Returns k
  | _ => Throws API_KEY_MISSING
  end.

Definition FILE_DIRECTIVE : jsstring :=
  lit "Analyze this image/document. Detect what functionality is implied. If it is a real-world object (like a desk), gamify it (e.g., a cleanup game). Build a fully interactive web app. IMPORTANT: Do NOT use external image URLs. Recreate the visuals using CSS, SVGs, or Emojis. Ensure all user-facing text is in Simplified Chinese.".

(** The default demo prompt, a 15-character Chinese sentence ("create a
    demo application that shows what you can do"). *)
Definition DEFAULT_PROMPT : jsstring :=
  [21019; 24314; 19968; 20010; 23637; 31034; 20320; 33021; 21147; 30340;
   28436; 31034; 24212; 29992; 12290]%N.

(** The HTML comment returned when the answer has no text: the comment
    delimiters around the 6-character Chinese text "generating content
    failed". *)
Definition FAILURE_PLACEHOLDER : jsstring :=
  (lit "<!-- " ++ [29983; 25104; 20869; 23481; 22833; 36133] ++ lit " -->")%N.

(** [fileBase64 ? directive : prompt || default] *)
Definition finalPrompt (prompt : jsstring) (fileBase64 : option jsstring)
  : jsstring :=
  if truthy_opt fileBase64 then FILE_DIRECTIVE
  else or_else (Some prompt) DEFAULT_PROMPT.

Definition bringToLife_request (prompt : jsstring)
  (fileBase64 mimeType : option jsstring) : request :=
  {| contents :=
       TextPart (finalPrompt prompt fileBase64) ::
       match fileBase64, mimeType with
       | Some ((_ :: _) as d), Some ((_ :: _) as m) => [InlineData d m]
       | _, _ => []
       end;
     systemInstruction := SYSTEM_INSTRUCTION |}.

Definition bringToLife (apiKey : option jsstring) (svc : remote)
  (prompt : jsstring) (fileBase64 mimeType : option jsstring)
  : outcome jsstring :=
  match getGenAIClient apiKey with
  | Throws e => Throws e
  | Returns key =>
      match svc key (bringToLife_request prompt fileBase64 mimeType) with
      | Throws e => Throws e
      | Returns text => Returns (cleanup (or_else text FAILURE_PLACEHOLDER))
      end
  end.

Definition updateCode_request (currentHtml userPrompt : jsstring) : request :=
  {| contents :=
       [ TextPart (lit "Here is the current HTML code:");
         TextPart currentHtml;
         TextPart (lit "User Request: " ++ userPrompt);
         TextPart (lit "Please provide the updated full HTML code.") ];
     systemInstruction := UPDATE_SYSTEM_INSTRUCTION |}.

Definition updateCode (apiKey : option jsstring) (svc : remote)
  (currentHtml userPrompt : jsstring) : outcome jsstring :=
  match getGenAIClient apiKey with
  | Throws e => Throws e
  | Returns key =>
      match svc key (updateCode_request currentHtml userPrompt) with
      | Throws e => Throws e
      | Returns text => Returns (cleanup (or_else text currentHtml))
      end
  end.

(** The TypeError of [text.replace] on a [text] that is no string, in
    the wording of V8. *)
Definition replace_TypeError (text : option json) : js_error :=
  match text with
  | None =>
      {| message := lit "Cannot read properties of undefined (reading 'replace')";
         rendering := lit "TypeError: Cannot read properties of undefined (reading 'replace')" |}
  | Some JNull =>
      {| message := lit "Cannot read properties of null (reading 'replace')";
         rendering := lit "TypeError: Cannot read properties of null (reading 'replace')" |}
  | Some _ =>
      {| message := lit "text.replace is not a function";
         rendering := lit "TypeError: text.replace is not a function" |}
  end.

Definition updateCode_untyped_request (currentHtml : option json)
  (userPrompt : jsstring) : request :=
  {| contents :=
       [ TextPart (lit "Here is the current HTML code:");
         ValuePart currentHtml;
         TextPart (lit "User Request: " ++ userPrompt);
         TextPart (lit "Please provide the updated full HTML code.") ];
     systemInstruction := UPDATE_SYSTEM_INSTRUCTION |}.

(** [updateCode] as [handleUpdate] calls it, with whatever value the
    [html] of the active creation is.  A string goes the way of
    [updateCode].  Any other value is put into the request as it is; an
    answer with text is cleaned as usual, and for one without text
    [response.text || currentHtml] is that value, on which [text.replace]
    throws inside the [try]. *)
Definition updateCode_untyped (apiKey : option jsstring) (svc : remote)
  (currentHtml : option json) (userPrompt : jsstring) : outcome jsstring :=
  match currentHtml with
  | Some (JStr h) => updateCode apiKey svc h userPrompt
  | _ =>
      match getGenAIClient apiKey with
      | Throws e => Throws e
      | Returns key =>
          match svc key (updateCode_untyped_request currentHtml userPrompt) with
          | Throws e => Throws e
          | Returns (Some ((_ :: _) as text)) => Returns (cleanup text)
          | Returns _ => Throws (replace_TypeError currentHtml)
          end
      end
  end.

(** What [bringToLife] makes of the service's answer to its request. *)
Definition bringToLife_answer (o : outcome (option jsstring))
  : outcome jsstring :=
  match o with
  | Throws e => Throws e
  | Returns text => Returns (cleanup (or_else text FAILURE_PLACEHOLDER))
  end.

(** The text part and the attachment of a request. *)
Definition request_text (r : request) : option jsstring :=
  match contents r with
  | TextPart t :: _ => Some t
  | _ => None
  end.

Definition has_attachment (r : request) : bool :=
  existsb (fun p => match p with InlineData _ _ => true | _ => false end)
          (contents r).

(** The service answered, with a [text] that is absent or empty. *)
Definition empty_answer (o : outcome (option jsstring)) : Prop :=
  o = Returns None \/ o = Returns (Some []).

End Gemini.
Import Gemini.

(* ================================================================== *)
(** ** App.tsx: the creation store and the session controller *)

Module App.

Definition MAX_HISTORY_ITEMS : nat := 30.

(** A [Date] is its time value in milliseconds; [None] is an invalid
    date. *)
Definition Date : Type := option Z.

(** [interface Creation] of components/CreationHistory, as the objects
    are at run time: a record made by [handleGenerate] or [handleUpdate]
    holds strings, one taken from an imported or stored document holds
    whatever values the document has, and [None] is a property that is
    absent.  Own properties other than these five are not followed. *)
Record Creation : Type := {
  id : option json;
  name : option json;
  html : option json;
  originalImage : option json;
  timestamp : Date
}.

Inductive ApiStatus : Type := idle | checking | valid | invalid.

(** The texts passed to [alert]. *)
Inductive alert_message : Type :=
| MsgKeyRejected          (* the key is invalid or the request was refused *)
| MsgGenerationProblem    (* something went wrong while generating *)
| MsgInvalidFileFormat    (* "invalid file format." *)
| MsgImportFailed.        (* "import failed."       *)

(** The text under [gemini_app_history] in [localStorage]. *)
Inductive stored_history : Type :=
| Saved (records : list Creation)  (* JSON.stringify(records), as the save effect writes it *)
| Foreign (v : json)               (* any other JSON text, by the value it denotes *)
| Unparseable.                     (* a text on which JSON.parse throws *)

(** The component state of [App], the two [localStorage] entries, and the
    alerts shown so far (oldest first). *)
Record state : Type := {
  activeCreation : option Creation;
  isGenerating : bool;
  history : list Creation;
  isApiKeyModalOpen : bool;
  apiStatus : ApiStatus;
  gemini_app_history : option stored_history;
  user_gemini_api_key : option jsstring;
  alerts : list alert_message
}.

(** What one handler run takes from the platform. *)
Record Env : Type := {
  randomUUID : jsstring;        (* crypto.randomUUID()                    *)
  now : Date;                   (* new Date(), new Date(Date.now())       *)
  newDate : json -> Date;       (* new Date(v) for a truthy JSON value v  *)
  toJSON : Date -> json;        (* Date.prototype.toJSON                  *)
  numberToString : PrimFloat.float -> jsstring;  (* Number::toString      *)
  setItem_succeeds : bool       (* localStorage.setItem does not throw    *)
}.

Definition setActiveCreation (c : option Creation) (s : state) : state :=
  {| activeCreation := c;
     isGenerating := isGenerating s;
     history := history s;
     isApiKeyModalOpen := isApiKeyModalOpen s;
     apiStatus := apiStatus s;
     gemini_app_history := gemini_app_history s;
     user_gemini_api_key := user_gemini_api_key s;
     alerts := alerts s |}.

Definition setIsGenerating (b : bool) (s : state) : state :=
  {| activeCreation := activeCreation s;
     isGenerating := b;
     history := history s;
     isApiKeyModalOpen := isApiKeyModalOpen s;
     apiStatus := apiStatus s;
     gemini_app_history := gemini_app_history s;
     user_gemini_api_key := user_gemini_api_key s;
     alerts := alerts s |}.

Definition setHistory (h : list Creation) (s : state) : state :=
  {| activeCreation := activeCreation s;
     isGenerating := isGenerating s;
     history := h;
     isApiKeyModalOpen := isApiKeyModalOpen s;
     apiStatus := apiStatus s;
     gemini_app_history := gemini_app_history s;
     user_gemini_api_key := user_gemini_api_key s;
     alerts := alerts s |}.

Definition setIsApiKeyModalOpen (b : bool) (s : state) : state :=
  {| activeCreation := activeCreation s;
     isGenerating := isGenerating s;
     history := history s;
     isApiKeyModalOpen := b;
     apiStatus := apiStatus s;
     gemini_app_history := gemini_app_history s;
     user_gemini_api_key := user_gemini_api_key s;
     alerts := alerts s |}.

Definition setApiStatus (a : ApiStatus) (s : state) : state :=
  {| activeCreation := activeCreation s;
     isGenerating := isGenerating s;
     history := history s;
     isApiKeyModalOpen := isApiKeyModalOpen s;
     apiStatus := a;
     gemini_app_history := gemini_app_history s;
     user_gemini_api_key := user_gemini_api_key s;
     alerts := alerts s |}.

(** [localStorage.setItem('gemini_app_history', ...)] and
    [localStorage.removeItem('gemini_app_history')]. *)
Definition storeHistory (v : option stored_history) (s : state) : state :=
  {| activeCreation := activeCreation s;
     isGenerating := isGenerating s;
     history := history s;
     isApiKeyModalOpen := isApiKeyModalOpen s;
     apiStatus := apiStatus s;
     gemini_app_history := v;
     user_gemini_api_key := user_gemini_api_key s;
     alerts := alerts s |}.

Definition alert (m : alert_message) (s : state) : state :=
  {| activeCreation := activeCreation s;
     isGenerating := isGenerating s;
     history := history s;
     isApiKeyModalOpen := isApiKeyModalOpen s;
     apiStatus := apiStatus s;
     gemini_app_history := gemini_app_history s;
     user_gemini_api_key := user_gemini_api_key s;
     alerts := alerts s ++ [m] |}.

(** The effect "save history when it changes": it runs after a render in
    which [history] is a new array.  A throwing [setItem] (storage full)
    is caught and only logged. *)
Definition saveEffect (env : Env) (s : state) : state :=
  match history s with
  | [] => s
  | _ :: _ =>
      if setItem_succeeds env
      then storeHistory (Some (Saved (history s))) s
      else s
  end.

Definition handleError (e : js_error) (s : state) : state :=
  if JsString.eqb (message e) (lit "API_KEY_MISSING") then
    setIsApiKeyModalOpen true s
  else if includes (lit "403") (rendering e)
          || includes (lit "400") (rendering e) then
    setIsApiKeyModalOpen true (setApiStatus invalid (alert MsgKeyRejected s))
  else alert MsgGenerationProblem s.

(** [prev => [c, ...prev].slice(0, MAX_HISTORY_ITEMS)], the updater of
    [handleGenerate] and of [handleUpdate]. *)
Definition prependCapped (c : Creation) (prev : list Creation)
  : list Creation :=
  firstn MAX_HISTORY_ITEMS (c :: prev).

(** The updater of [handleImportFile]: nothing changes when a record
    with the id is there already. *)
Definition importInto (c : Creation) (prev : list Creation)
  : list Creation :=
  if existsb (fun x => strict_eq (id x) (id c)) prev then prev
  else firstn MAX_HISTORY_ITEMS (c :: prev).

(** The file handed to [handleGenerate]: its name, its type in lower
    case, and what [fileToBase64] resolves to. *)
Record File : Type := {
  file_name : jsstring;
  file_type : jsstring;
  file_base64 : outcome jsstring
}.

(** The 3-character default name of a creation made without a file
    ("new creation"). *)
Definition DEFAULT_NAME : jsstring := [26032; 21019; 20316]%N.

(** [handleGenerate] up to its first [await]. *)
Definition handleGenerate_begin (s : state) : state :=
  setActiveCreation None (setIsGenerating true s).

Definition newCreation (env : Env) (file : option File)
  (imageBase64 mimeType : option jsstring) (html0 : jsstring) : Creation :=
  {| id := str (randomUUID env);
     name := str (match file with
                  | Some f => file_name f
                  | None => DEFAULT_NAME
                  end);
     html := str html0;
     originalImage :=
       match imageBase64, mimeType with
       | Some ((_ :: _) as d), Some ((_ :: _) as m) =>
           str (lit "data:" ++ m ++ lit ";base64," ++ d)
       | _, _ => None
       end;
     timestamp := now env |}.

(** [handleGenerate] from the [try] on: the state it finds is the one
    current when the awaited calls settle. *)
Definition handleGenerate_end (env : Env) (svc : remote)
  (promptText : jsstring) (file : option File) (s : state) : state :=
  let key := user_gemini_api_key s in
  let after (imageBase64 mimeType : option jsstring) : state :=
    match bringToLife key svc promptText imageBase64 mimeType with
    | Returns ((_ :: _) as html0) =>
        let c := newCreation env file imageBase64 mimeType html0 in
        saveEffect env
          (setHistory (prependCapped c (history s))
             (setActiveCreation (Some c) s))
    | Returns [] => s
    | Throws e => handleError e s
    end in
  let s' :=
    match file with
    | None => after None None
    | Some f =>
        match file_base64 f with
        | Returns b => after (Some b) (Some (file_type f))
        | Throws e => handleError e s
        end
    end in
  setIsGenerating false s'.

Definition handleGenerate (env : Env) (svc : remote)
  (promptText : jsstring) (file : option File) (s : state) : state :=
  handleGenerate_end env svc promptText file (handleGenerate_begin s).

(** [handleUpdate] up to its [await]: nothing happens without an active
    creation; otherwise the creation the closure holds is the one being
    revised. *)
Definition handleUpdate_begin (s : state) : option (Creation * state) :=
  match activeCreation s with
  | None => None
  | Some c => Some (c, setIsGenerating true s)
  end.

(** The template literal [`${activeCreation.name} (v2)`]; [None] when
    the conversion of the name throws. *)
Definition versionName (env : Env) (c : Creation) : option jsstring :=
  match toString_value (numberToString env) (name c) with
  | Some n => Some (n ++ lit " (v2)")
  | None => None
  end.

(** The TypeError of a template literal on an object that cannot be
    converted, in the wording of V8. *)
Definition CANNOT_CONVERT : js_error :=
  {| message := lit "Cannot convert object to primitive value";
     rendering := lit "TypeError: Cannot convert object to primitive value" |}.

(** [{...activeCreation, id: ..., name: ..., html: newHtml,
    timestamp: new Date()}], [newName] being the text the template
    literal gave. *)
Definition updatedCreation (env : Env) (c : Creation)
  (newName newHtml : jsstring) : Creation :=
  {| id := str (randomUUID env);
     name := str newName;
     html := str newHtml;
     originalImage := originalImage c;
     timestamp := now env |}.

Definition handleUpdate_end (env : Env) (svc : remote) (c : Creation)
  (prompt : jsstring) (s : state) : state :=
  let s' :=
    match updateCode_untyped (user_gemini_api_key s) svc (html c) prompt with
    | Returns ((_ :: _) as newHtml) =>
        match versionName env c with
        | Some newName =>
            let u := updatedCreation env c newName newHtml in
            saveEffect env
              (setActiveCreation (Some u)
                 (setHistory (prependCapped u (history s)) s))
        | None => handleError CANNOT_CONVERT s
        end
    | Returns [] => s
    | Throws e => handleError e s
    end in
  setIsGenerating false s'.

Definition handleUpdate (env : Env) (svc : remote) (prompt : jsstring)
  (s : state) : state :=
  match handleUpdate_begin s with
  | None => s
  | Some (c, s1) => handleUpdate_end env svc c prompt s1
  end.

Definition handleReset (s : state) : state :=
  setIsGenerating false (setActiveCreation None s).

Definition handleSelectCreation (c : Creation) (s : state) : state :=
  setActiveCreation (Some c) s.

Definition handleDeleteCreation (env : Env) (id0 : jsstring) (s : state)
  : state :=
  let s1 :=
    match activeCreation s with
    | Some a => if strict_eq (id a) (str id0) then setActiveCreation None s
                else s
    | None => s
    end in
  let newHistory :=
    filter (fun item => negb (strict_eq (id item) (str id0))) (history s1) in
  let s2 :=
    match newHistory with
    | [] => storeHistory None s1
    | _ :: _ => s1
    end in
  saveEffect env (setHistory newHistory s2).

(** *** The export of the live preview *)

Definition is_alnum (c : N) : bool :=
  ((N.leb 48 c && N.leb c 57)
   || (N.leb 65 c && N.leb c 90)
   || (N.leb 97 c && N.leb c 122))%bool%N.

(** [s.replace(/[^a-z0-9]/gi, '_')]: with [i] and without [u] the class
    holds the ASCII letters of both cases and the digits; every other
    code unit becomes an underscore. *)
Definition replace_non_alnum (s : jsstring) : jsstring :=
  map (fun c => if is_alnum c then c else 95%N) s.

(** [toLowerCase] on code units below 128, where only A to Z change; it
    is applied to the result of [replace_non_alnum], which has no other
    code units. *)
Definition toLowerCase (s : jsstring) : jsstring :=
  map (fun c => if (N.leb 65 c && N.leb c 90)%bool%N then (c + 32)%N else c) s.

(** The name of the file [handleExport] downloads.  Only a string has a
    [replace]: on any other name the expression throws a TypeError, the
    [None]. *)
Definition exportFileName (c : Creation) : option jsstring :=
  match name c with
  | Some (JStr n) =>
      Some (toLowerCase (replace_non_alnum n) ++ lit "_artifact.json")
  | _ => None
  end.

(** [JSON.stringify(creation, null, 2)] as the value it denotes.  A
    property that is absent is left out; the date goes through its
    [toJSON]; every other value is one [JSON.parse] gave or a string, and
    is written as it is (that JSON writes the negative zero as 0 is not
    followed). *)
Definition property (k : jsstring) (v : option json)
  : list (jsstring * json) :=
  match v with
  | Some x => [ (k, x) ]
  | None => []
  end.

Definition creationJSON (env : Env) (c : Creation) : json :=
  JObj (property (lit "id") (id c)
        ++ property (lit "name") (name c)
        ++ property (lit "html") (html c)
        ++ property (lit "originalImage") (originalImage c)
        ++ [ (lit "timestamp", toJSON env (timestamp c)) ]).

(** [handleExport] of the live preview: the document written to the
    downloaded file.  Nothing is downloaded without a creation, nor when
    the file name cannot be made (the throw comes before the click). *)
Definition handleExport (env : Env) (creation : option Creation)
  : option json :=
  match creation with
  | None => None
  | Some c =>
      match exportFileName c with
      | Some _ => Some (creationJSON env c)
      | None => None
      end
  end.

(** *** Import *)

(** What [JSON.parse] does with the text of the imported file. *)
Inductive parse_result : Type :=
| SyntaxError
| Parsed (v : json).

(** [{...parsed, timestamp: new Date(parsed.timestamp || Date.now()),
    id: parsed.id || crypto.randomUUID()}] for a document that is an
    object: [html], [name] and [originalImage] are taken as they are. *)
Definition importedCreation (env : Env) (fields : list (jsstring * json))
  : Creation :=
  {| id := if truthy_json (lookup (lit "id") fields)
           then lookup (lit "id") fields
           else str (randomUUID env);
     name := lookup (lit "name") fields;
     html := lookup (lit "html") fields;
     originalImage := lookup (lit "originalImage") fields;
     timestamp :=
       match lookup (lit "timestamp") fields with
       | Some v => if truthy_json (Some v) then newDate env v else now env
       | None => now env
       end |}.

(** The [onload] callback of [handleImportFile].  Only an object can
    have a truthy [html] and [name].  When the updater returns [prev]
    itself there is no new render and the save effect does not run. *)
Definition handleImportFile (env : Env) (r : parse_result) (s : state)
  : state :=
  match r with
  | SyntaxError => alert MsgImportFailed s
  | Parsed v =>
      match prop v (lit "html"), prop v (lit "name") with
      | Some h, Some n =>
          if truthy_json h && truthy_json n then
            match v with
            | JObj fields =>
                let c := importedCreation env fields in
                let s1 :=
                  if existsb (fun x => strict_eq (id x) (id c)) (history s)
                  then s
                  else saveEffect env
                         (setHistory (importInto c (history s)) s) in
                setActiveCreation (Some c) s1
            | _ => alert MsgInvalidFileFormat s
            end
          else alert MsgInvalidFileFormat s
      | _, _ => alert MsgImportFailed s
      end
  end.

(** The record [handleImportFile] builds from the exported document of
    [c]: that of [c], with the date read back from its JSON form (the
    current time when that form is falsy, as [null] is). *)
Definition reimported (env : Env) (c : Creation) : Creation :=
  {| id := id c;
     name := name c;
     html := html c;
     originalImage := originalImage c;
     timestamp :=
       if truthy_json (Some (toJSON env (timestamp c)))
       then newDate env (toJSON env (timestamp c))
       else now env |}.

(** *** Start-up *)







Definition initial (storedHistory : option stored_history)
  (storedKey : option jsstring) : state :=
  {| activeCreation := None;
     isGenerating := false;
     history := [];
     isApiKeyModalOpen := false;
     apiStatus := idle;
     gemini_app_history := storedHistory;
     user_gemini_api_key := storedKey;
     alerts := [] |}.

(** *** The handlers as events *)

Inductive event : Type :=
| Generate (promptText : jsstring) (file : option File)
| Update (prompt : jsstring)
| Delete (id0 : jsstring)
| ImportFile (r : parse_result)
| Select (c : Creation)
| Reset.

(** One handler run from start to end, nothing else in between. *)
Definition step (env : Env) (svc : remote) (ev : event) (s : state)
  : state :=
  match ev with
  | Generate promptText file => handleGenerate env svc promptText file s
  | Update prompt => handleUpdate env svc prompt s
  | Delete id0 => handleDeleteCreation env id0 s
  | ImportFile r => handleImportFile env r s
  | Select c => handleSelectCreation c s
  | Reset => handleReset s
  end.

(** *** Handler runs that add a record *)



(** The persisted entry agrees with the collection in memory: no entry
    for an empty collection, the text of the collection otherwise. *)
Definition persisted_reflects (s : state) : Prop :=
  gemini_app_history s =
  match history s with
  | [] => None
  | _ :: _ => Some (Saved (history s))
  end.

End App.
Import App.
(* ================================================================== *)
(** ** The clean-up read as prefix and suffix removal

    What the three replacements amount to, written on lists: this is the
    reading the facts below relate [cleanup] to. *)

Module Fences.

Fixpoint skip_ws (s : jsstring) : jsstring :=
  match s with
  | x :: s' => if is_space x then skip_ws s' else s
  | [] => []
  end.

Definition strip_open_html (t : jsstring) : jsstring :=
  if starts_with fence_html t then skip_ws (skipn 7 t) else t.

Definition strip_open (t : jsstring) : jsstring :=
  if starts_with fence t then skip_ws (skipn 3 t) else t.

Definition strip_close (t : jsstring) : jsstring :=
  if ends_with fence t then firstn (List.length t - 3) t else t.

(** The text begins with no white space. *)
Definition no_leading_space (t : jsstring) : bool :=
  match t with
  | x :: _ => negb (is_space x)
  | [] => true
  end.

(** The text neither starts nor ends with a fence. *)
Definition fence_free (t : jsstring) : bool :=
  negb (starts_with fence t) && negb (ends_with fence t).

End Fences.
Import Fences.


(* ================================================================== *)
(** ** Sample data for the worked instances *)

Module Samples.

(** A record whose id is the one code unit [n]. *)
Definition sample (n : N) : Creation :=
  {| id := str [n];
     name := str (lit "X");
     html := str (lit "<p>hi</p>");
     originalImage := None;
     timestamp := Some 0%Z |}.

Definition sample_env : Env :=
  {| randomUUID := lit "new-id";
     now := Some 1000%Z;
     newDate := fun _ => Some 0%Z;
     toJSON := fun d => match d with Some _ => JStr (lit "1970-01-01T00:00:00.000Z") | None => JNull end;
     numberToString := fun _ => lit "0";
     setItem_succeeds := true |}.

(** The same platform with a storage that refuses the write. *)
Definition full_storage_env : Env :=
  {| randomUUID := lit "new-id";
     now := Some 1000%Z;
     newDate := fun _ => Some 0%Z;
     toJSON := fun d => match d with Some _ => JStr (lit "1970-01-01T00:00:00.000Z") | None => JNull end;
     numberToString := fun _ => lit "0";
     setItem_succeeds := false |}.

(** The same platform drawing another id. *)
Definition other_env : Env :=
  {| randomUUID := lit "other-id";
     now := Some 2000%Z;
     newDate := fun _ => Some 0%Z;
     toJSON := fun d => match d with Some _ => JStr (lit "1970-01-01T00:00:00.000Z") | None => JNull end;
     numberToString := fun _ => lit "0";
     setItem_succeeds := true |}.

(** A service that answers every request with the same page. *)
Definition page_service : remote :=
  fun _ _ => Returns (Some (lit "<p>v2</p>")).

(** A service that answers with the text part of the request it got. *)
Definition echo_service : remote :=
  fun _ r => Returns (request_text r).


(** A session with the key [k], the given history, persisted as it is,
    and the given active creation. *)
Definition session (h : list Creation) (active : option Creation) : state :=
  {| activeCreation := active;
     isGenerating := false;
     history := h;
     isApiKeyModalOpen := false;
     apiStatus := valid;
     gemini_app_history := match h with [] => None | _ :: _ => Some (Saved h) end;
     user_gemini_api_key := Some (lit "k");
     alerts := [] |}.

(** Thirty records, ids 0 to 29, the one with id 0 at the head. *)
Definition thirty : list Creation :=
  map (fun n => sample (N.of_nat n)) (seq 0 30).

(** A document with the given id, and the record an import makes of
    it. *)
Definition document (i : jsstring) : list (jsstring * json) :=
  [ (lit "id", JStr i); (lit "name", JStr (lit "Y"));
    (lit "html", JStr (lit "<p>other</p>")) ].

End Samples.
Import Samples.

(* ================================================================== *)
(** ** The rest of the session: key handling, the preview, the history
    strip *)

Module Session.

(** [s.trim()]: white space and line terminators off both ends, the
    characters of the class [\s]. *)
Definition trim (s : jsstring) : jsstring :=
  rev (skip_ws (rev (skip_ws s))).

(** [s.split(sep)] for a separator of one code unit. *)
Fixpoint split_on (sep : N) (s : jsstring) : list jsstring :=
  match s with
  | [] => [[]]
  | x :: s' =>
      if N.eqb x sep then [] :: split_on sep s'
      else match split_on sep s' with
           | piece :: pieces => (x :: piece) :: pieces
           | [] => [[x]]
           end
  end.

(** [fileToBase64]: what is resolved from the data URL the reader
    produced, [reader.result.split(',')[1]]; [None] is [undefined]. *)
Definition fileToBase64 (readerResult : jsstring) : option jsstring :=
  nth_error (split_on 44 readerResult) 1.

(** The data URL [handleGenerate] stores as [originalImage]. *)
Definition dataUrl (mimeType imageBase64 : jsstring) : jsstring :=
  lit "data:" ++ mimeType ++ lit ";base64," ++ imageBase64.

Definition storeKey (k : option jsstring) (s : state) : state :=
  {| activeCreation := activeCreation s;
     isGenerating := isGenerating s;
     history := history s;
     isApiKeyModalOpen := isApiKeyModalOpen s;
     apiStatus := apiStatus s;
     gemini_app_history := gemini_app_history s;
     user_gemini_api_key := k;
     alerts := alerts s |}.

(** The minimal call of [validateApiKey] as the environment answers it
    for a key. *)
Definition probe : Type := jsstring -> outcome (option jsstring).

(** [validateApiKey]: any throw is a [false]. *)
Definition validateApiKey (test : probe) (apiKey : jsstring) : bool :=
  match test apiKey with
  | Returns _ => true
  | Throws _ => false
  end.

(** [checkApiConnection], run to its end: without a key the status is
    idle and the timer opens the key dialog; with one the status passes
    through checking to valid or invalid. *)
Definition checkApiConnection (test : probe) (s : state) : state :=
  match user_gemini_api_key s with
  | Some ((_ :: _) as key) =>
      setApiStatus (if validateApiKey test key then valid else invalid)
        (setApiStatus checking s)
  | _ => setIsApiKeyModalOpen true (setApiStatus idle s)
  end.

Definition handleApiKeySaved (test : probe) (s : state) : state :=
  checkApiConnection test (setIsApiKeyModalOpen false s).

(** [handleSave] of the key dialog on the text typed in.  A throwing
    [setItem] leaves the handler before [onSave]. *)
Definition handleSave (env : Env) (test : probe) (apiKey : jsstring)
  (s : state) : state :=
  match trim apiKey with
  | [] => s
  | (_ :: _) as k =>
      if setItem_succeeds env
      then handleApiKeySaved test (storeKey (Some k) s)
      else s
  end.

(** [handleClear] of the key dialog. *)
Definition handleClear (s : state) : state := storeKey None s.


(** *** The live preview *)

(** [handleUpdateSubmit]: a prompt that is blank after [trim] is not
    sent; one that is not blank is sent as typed. *)
Definition handleUpdateSubmit (env : Env) (svc : remote)
  (updatePrompt : jsstring) (s : state) : state :=
  match trim updatePrompt with
  | [] => s
  | _ :: _ => handleUpdate env svc updatePrompt s
  end.

(** The loading animation: the updater of the two-second timer, and the
    step shown after [n] ticks of one loading phase. *)
Definition loadingTick (prev : nat) : nat :=
  if Nat.ltb prev 3 then prev + 1 else prev.

Definition loadingStepAfter (n : nat) : nat := Nat.iter n loadingTick 0.

(** The login form of the preview. *)
Record Auth : Type := {
  isAuthenticated : bool;
  showLogin : bool;
  username : jsstring;
  password : jsstring;
  authError : jsstring
}.

(** The 10-character message "access denied: invalid credentials". *)
Definition ACCESS_DENIED : jsstring :=
  [35775; 38382; 34987; 25298; 32477; 65306; 20973; 35777; 26080; 25928]%N.

Definition handleLogin (a : Auth) : Auth :=
  if JsString.eqb (username a) (lit "canton09")
     && JsString.eqb (password a) (lit "WW810922")
  then {| isAuthenticated := true; showLogin := false;
          username := []; password := []; authError := [] |}
  else {| isAuthenticated := isAuthenticated a; showLogin := showLogin a;
          username := username a; password := [];
          authError := ACCESS_DENIED |}.

(** *** The history strip *)

Inductive icon : Type := DocumentIcon | PhotoIcon | CodeBracketIcon.

(** [item.originalImage?.startsWith('data:application/pdf')], read as a
    condition: [undefined] (for an image that is absent or [null]) counts
    as false.  A value that is neither a string nor absent has no
    [startsWith], and calling it throws a TypeError: the [None]. *)
Definition isPdf (item : Creation) : option bool :=
  match originalImage item with
  | None => Some false
  | Some JNull => Some false
  | Some (JStr img) => Some (starts_with (lit "data:application/pdf") img)
  | Some _ => None
  end.

Definition hasImage (item : Creation) : option bool :=
  match isPdf item with
  | Some pdf => Some (truthy_json (originalImage item) && negb pdf)
  | None => None
  end.

(** The small icon of a card. *)
Definition cardIcon (item : Creation) : option icon :=
  match isPdf item, hasImage item with
  | Some pdf, Some image =>
      Some (if pdf then DocumentIcon
            else if image then PhotoIcon
            else CodeBracketIcon)
  | _, _ => None
  end.

End Session.
Import Session.

(** *** Predicates on states and records used by the facts *)

Module Invariants.

(** Every record of the history has a page that is truthy: for a string,
    one that is not empty. *)
Definition pages_truthy (s : state) : Prop :=
  Forall (fun c => truthy_json (html c) = true) (history s).

(** No two records of the history have ids that are [===]. *)
Definition ids_unique (s : state) : Prop :=
  ForallOrdPairs (fun a b => strict_eq (id a) (id b) = false) (history s).

(** The text is made of white space only. *)
Definition blank (t : jsstring) : bool := forallb is_space t.

(** A text in which the code unit does not occur. *)
Definition lacks_unit (c : N) (t : jsstring) : bool :=
  forallb (fun x => negb (N.eqb x c)) t.

(** A lower-case letter, a digit or the underscore. *)
Definition safe_unit (c : N) : bool :=
  ((N.leb 48 c && N.leb c 57) || (N.leb 97 c && N.leb c 122)
   || N.eqb c 95)%bool%N.

(** A session: handler runs one after the other, each with what the
    platform hands it. *)
Fixpoint sessionRun (svc : remote) (evs : list (Env * event)) (s : state)
  : state :=
  match evs with
  | [] => s
  | (env, ev) :: rest => sessionRun svc rest (step env svc ev s)
  end.

(** The state a generation ends in when its call returned the page
    [html0]. *)
Definition generated_state (env : Env) (file : option File)
  (imageBase64 mimeType : option jsstring) (html0 : jsstring) (s : state)
  : state :=
  let c := newCreation env file imageBase64 mimeType html0 in
  setIsGenerating false
    (saveEffect env
       (setHistory (prependCapped c (history s))
          (setActiveCreation (Some c) (handleGenerate_begin s)))).

(** The file, if there is one, could be read. *)
Definition readable (file : option File) : Prop :=
  match file with
  | Some f => exists b, file_base64 f = Returns b
  | None => True
  end.

End Invariants.
Import Invariants.
(* ================================================================== *)
(** * Facts *)

(** ** Strings *)

Section StringFacts.

Lemma jsstring_eqb_refl a : JsString.eqb a a = true.
Proof.
  induction a as [|x a IH]; [reflexivity|].
  cbn [JsString.eqb]. now rewrite N.eqb_refl, IH.
Qed.

Lemma jsstring_eqb_eq a b : JsString.eqb a b = true <-> a = b.
Proof.
  split; [|intros ->; apply jsstring_eqb_refl].
  revert b; induction a as [|x a IH]; intros [|y b]; cbn [JsString.eqb];
    try easy.
  intros H. apply andb_true_iff in H as [Hx Ha].
  apply N.eqb_eq in Hx. subst y. f_equal. now apply IH.
Qed.

Lemma jsstring_eqb_neq a b : JsString.eqb a b = false <-> a <> b.
Proof.
  rewrite <- jsstring_eqb_eq. destruct (JsString.eqb a b); split; congruence.
Qed.

Lemma starts_with_app p s : starts_with p (p ++ s) = true.
Proof.
  induction p as [|c p IH]; simpl; [reflexivity|].
  now rewrite N.eqb_refl, IH.
Qed.

Lemma starts_with_split p s :
  starts_with p s = true -> s = p ++ skipn (List.length p) s.
Proof.
  revert s; induction p as [|c p IH]; intros [|x s]; simpl; try easy.
  intros H. apply andb_true_iff in H as [Hc Hp].
  apply N.eqb_eq in Hc. subst x. f_equal. now apply IH.
Qed.

Lemma starts_with_weaken p s t :
  starts_with p s = true -> starts_with p (s ++ t) = true.
Proof.
  revert s; induction p as [|c p IH]; intros [|x s]; simpl; try easy.
  intros H. apply andb_true_iff in H as [Hc Hp].
  rewrite Hc. simpl. now apply IH.
Qed.

Lemma starts_with_prefix p q s :
  starts_with (p ++ q) s = true -> starts_with p s = true.
Proof.
  revert s; induction p as [|c p IH]; intros [|x s]; simpl; try easy.
  intros H. apply andb_true_iff in H as [Hc Hp].
  rewrite Hc. simpl. now apply IH with (1 := Hp).
Qed.

Lemma ends_with_app p s : ends_with p (s ++ p) = true.
Proof.
  unfold ends_with. rewrite rev_app_distr. apply starts_with_app.
Qed.

Lemma ends_with_cons p x s :
  ends_with p s = true -> ends_with p (x :: s) = true.
Proof.
  unfold ends_with. simpl. apply starts_with_weaken.
Qed.

Lemma ends_with_split p s :
  ends_with p s = true -> exists b, s = b ++ p.
Proof.
  unfold ends_with. intros H. apply starts_with_split in H.
  exists (rev (skipn (List.length (rev p)) (rev s))).
  rewrite <- (rev_involutive s) at 1. rewrite H at 1.
  now rewrite rev_app_distr, rev_involutive.
Qed.

End StringFacts.

(** ** The matcher on the three patterns *)

Section RegexFacts.

Lemma match_here_chars l re b s :
  match_here (chars l ++ re) b s =
  if starts_with l s
  then match_here re (match l with [] => b | _ :: _ => false end)
                  (skipn (List.length l) s)
  else None.
Proof.
  revert b s; induction l as [|c l IH]; intros b s.
  - reflexivity.
  - destruct s as [|x s]; [reflexivity|].
    cbn [chars map app match_here starts_with List.length skipn].
    destruct (N.eqb x c); [|reflexivity].
    cbn [andb]. fold (chars l). rewrite IH.
    destruct l; reflexivity.
Qed.

Lemma match_here_WsStar b s : match_here [WsStar] b s = Some (skip_ws s).
Proof.
  revert b; induction s as [|x s IH]; intros b; [reflexivity|].
  cbn [match_here] in *. cbn [skip_ws].
  destruct (is_space x); [|reflexivity].
  now rewrite IH.
Qed.

Lemma search_Bol re s : search (Bol :: re) false s = None.
Proof.
  induction s as [|x s IH]; [reflexivity|].
  cbn [search match_here]. now rewrite IH.
Qed.

Lemma replace_Bol re s :
  replace (Bol :: re) [] s =
  match match_here re true s with Some rest => rest | None => s end.
Proof.
  unfold replace. destruct s as [|x s]; cbn [search match_here].
  - destruct (match_here re true []); reflexivity.
  - destruct (match_here re true (x :: s)); [reflexivity|].
    now rewrite search_Bol.
Qed.

Lemma replace_re_open_html t :
  replace re_open_html [] t = strip_open_html t.
Proof.
  unfold re_open_html, strip_open_html.
  rewrite replace_Bol, match_here_chars.
  destruct (starts_with fence_html t); [|reflexivity].
  now rewrite match_here_WsStar.
Qed.

Lemma replace_re_open t : replace re_open [] t = strip_open t.
Proof.
  unfold re_open, strip_open.
  rewrite replace_Bol, match_here_chars.
  destruct (starts_with fence t); [|reflexivity].
  now rewrite match_here_WsStar.
Qed.

End RegexFacts.

Section CloseFacts.

Lemma match_here_Eol b r :
  match_here [Eol] b r = match r with [] => Some [] | _ :: _ => None end.
Proof. destruct r; reflexivity. Qed.

Lemma match_here_re_close b t :
  match_here re_close b t =
  if JsString.eqb t fence then Some [] else None.
Proof.
  unfold re_close. rewrite match_here_chars, match_here_Eol.
  destruct (starts_with fence t) eqn:Hs.
  - apply starts_with_split in Hs.
    destruct (skipn (List.length fence) t) as [|y r] eqn:Hk.
    + rewrite app_nil_r in Hs. subst t. now rewrite jsstring_eqb_refl.
    + destruct (JsString.eqb t fence) eqn:He; [|reflexivity].
      apply jsstring_eqb_eq in He. rewrite He in Hs.
      apply (f_equal (@List.length N)) in Hs.
      rewrite length_app in Hs. cbn in Hs. lia.
  - destruct (JsString.eqb t fence) eqn:He; [|reflexivity].
    apply jsstring_eqb_eq in He. subst t. cbv in Hs. discriminate Hs.
Qed.

Lemma search_re_close_app b body :
  search re_close b (body ++ fence) = Some (body, []).
Proof.
  revert b; induction body as [|x body IH]; intros b.
  - destruct b; reflexivity.
  - cbn [app search]. rewrite match_here_re_close.
    destruct (JsString.eqb (x :: body ++ fence) fence) eqn:He.
    + apply jsstring_eqb_eq in He.
      apply (f_equal (@List.length N)) in He.
      cbn [List.length] in He. rewrite length_app in He.
      cbn in He. lia.
    + now rewrite IH.
Qed.

Lemma search_re_close_none b s :
  ends_with fence s = false -> search re_close b s = None.
Proof.
  revert b; induction s as [|x s IH]; intros b H.
  - destruct b; reflexivity.
  - cbn [search]. rewrite match_here_re_close.
    destruct (JsString.eqb (x :: s) fence) eqn:He.
    + apply jsstring_eqb_eq in He. rewrite He in H. cbv in H. discriminate H.
    + rewrite IH; [reflexivity|].
      destruct (ends_with fence s) eqn:Hs; [|reflexivity].
      apply ends_with_cons with (x := x) in Hs. congruence.
Qed.

Lemma replace_re_close t : replace re_close [] t = strip_close t.
Proof.
  unfold replace, strip_close.
  destruct (ends_with fence t) eqn:He.
  - apply ends_with_split in He as [b ->].
    rewrite search_re_close_app, !app_nil_r.
    rewrite length_app. cbn [List.length fence lit].
    replace (List.length b + 3 - 3) with (List.length b + 0) by lia.
    now rewrite firstn_app_2, app_nil_r.
  - now rewrite search_re_close_none.
Qed.

(** The clean-up is the three removals in a row. *)
Lemma cleanup_strip t :
  cleanup t = strip_close (strip_open (strip_open_html t)).
Proof.
  unfold cleanup.
  now rewrite replace_re_open_html, replace_re_open, replace_re_close.
Qed.

Lemma strip_close_app body : strip_close (body ++ fence) = body.
Proof.
  unfold strip_close. rewrite ends_with_app, length_app.
  cbn [List.length fence lit].
  replace (List.length body + 3 - 3) with (List.length body + 0) by lia.
  now rewrite firstn_app_2, app_nil_r.
Qed.

Lemma skip_ws_spaces ws r :
  forallb is_space ws = true -> skip_ws (ws ++ r) = skip_ws r.
Proof.
  induction ws as [|x ws IH]; [reflexivity|].
  cbn [forallb app skip_ws]. intros H.
  apply andb_true_iff in H as [Hx Hws]. rewrite Hx. now apply IH.
Qed.

Lemma skip_ws_clean t : no_leading_space t = true -> skip_ws t = t.
Proof.
  destruct t as [|x t]; [reflexivity|].
  cbn [no_leading_space skip_ws]. intros H.
  apply negb_true_iff in H. now rewrite H.
Qed.

Lemma no_leading_space_app body :
  no_leading_space body = true -> no_leading_space (body ++ fence) = true.
Proof. destruct body; [reflexivity | exact (fun H => H)]. Qed.

Lemma fence_free_unchanged t : fence_free t = true -> cleanup t = t.
Proof.
  unfold fence_free. intros H.
  apply andb_true_iff in H as [Ho Hc].
  apply negb_true_iff in Ho. apply negb_true_iff in Hc.
  rewrite cleanup_strip. unfold strip_open_html, strip_open, strip_close.
  destruct (starts_with fence_html t) eqn:Hh.
  - change fence_html with (fence ++ lit "html") in Hh.
    apply starts_with_prefix in Hh. congruence.
  - now rewrite Ho, Hc.
Qed.

End CloseFacts.

(** ** C3: what the clean-up strips *)

Section CleanupFacts.

Lemma cleanup_tagged ws body :
  forallb is_space ws = true ->
  no_leading_space body = true ->
  starts_with fence body = false ->
  cleanup (fence_html ++ ws ++ body ++ fence) = body.
Proof.
  intros Hws Hclean Hbody.
  rewrite cleanup_strip.
  unfold strip_open_html. rewrite starts_with_app.
  change (skipn 7 (fence_html ++ ws ++ body ++ fence))
    with (ws ++ body ++ fence).
  rewrite skip_ws_spaces by exact Hws.
  rewrite skip_ws_clean by (apply no_leading_space_app; exact Hclean).
  unfold strip_open.
  destruct (starts_with fence (body ++ fence)) eqn:Hs.
  - destruct body as [|x [|y [|z r]]].
    + reflexivity.
    + cbn in Hs. rewrite !andb_true_r in Hs.
      apply N.eqb_eq in Hs. subst x. reflexivity.
    + cbn in Hs. rewrite !andb_true_r in Hs.
      apply andb_true_iff in Hs as [Hx Hy].
      apply N.eqb_eq in Hx, Hy. subst x y. reflexivity.
    + cbn in Hs, Hbody. congruence.
  - apply strip_close_app.
Qed.

Lemma cleanup_untagged ws body :
  forallb is_space ws = true ->
  no_leading_space body = true ->
  starts_with fence_html (fence ++ ws ++ body ++ fence) = false ->
  cleanup (fence ++ ws ++ body ++ fence) = body.
Proof.
  intros Hws Hclean Htag.
  rewrite cleanup_strip.
  unfold strip_open_html. rewrite Htag.
  unfold strip_open. rewrite starts_with_app.
  change (skipn 3 (fence ++ ws ++ body ++ fence)) with (ws ++ body ++ fence).
  rewrite skip_ws_spaces by exact Hws.
  rewrite skip_ws_clean by (apply no_leading_space_app; exact Hclean).
  apply strip_close_app.
Qed.

(** What the clean-up returns for a wrapped text is always a tail of the
    wrapped text: the wrapper goes in full, whatever is inside. *)

Lemma skip_ws_tail s : exists k, skip_ws s = skipn k s.
Proof.
  induction s as [|x s [k IH]]; [now exists 0|].
  cbn [skip_ws]. destruct (is_space x); [|now exists 0].
  exists (S k). exact IH.
Qed.

Lemma skip_ws_app_fence body :
  skip_ws (body ++ fence) = skip_ws body ++ fence.
Proof.
  induction body as [|x body IH]; [reflexivity|].
  cbn [app skip_ws]. now destruct (is_space x).
Qed.

Lemma strip_rest_tail b1 :
  exists k, strip_close (strip_open (b1 ++ fence)) = skipn k b1.
Proof.
  unfold strip_open.
  destruct (starts_with fence (b1 ++ fence)) eqn:Hs;
    [|exists 0; apply strip_close_app].
  destruct b1 as [|x [|y [|z r]]].
  - now exists 0.
  - cbn in Hs. rewrite !andb_true_r in Hs.
    apply N.eqb_eq in Hs. subst x. now exists 0.
  - cbn in Hs. rewrite !andb_true_r in Hs.
    apply andb_true_iff in Hs as [Hx Hy].
    apply N.eqb_eq in Hx, Hy. subst x y. now exists 0.
  - change (skipn 3 ((x :: y :: z :: r) ++ fence)) with (r ++ fence).
    rewrite skip_ws_app_fence, strip_close_app.
    destruct (skip_ws_tail r) as [k Hk]. exists (3 + k). exact Hk.
Qed.

Lemma cleanup_tagged_tail ws body :
  forallb is_space ws = true ->
  exists k, cleanup (fence_html ++ ws ++ body ++ fence) = skipn k body.
Proof.
  intros Hws. rewrite cleanup_strip.
  unfold strip_open_html. rewrite starts_with_app.
  change (skipn 7 (fence_html ++ ws ++ body ++ fence))
    with (ws ++ body ++ fence).
  rewrite skip_ws_spaces by exact Hws. rewrite skip_ws_app_fence.
  destruct (strip_rest_tail (skip_ws body)) as [k Hk].
  destruct (skip_ws_tail body) as [j Hj].
  exists (k + j). rewrite Hk, Hj. apply skipn_skipn.
Qed.

Lemma cleanup_untagged_tail ws body :
  forallb is_space ws = true ->
  exists k, cleanup (fence ++ ws ++ body ++ fence) = skipn k body.
Proof.
  intros Hws.
  destruct (starts_with fence_html (fence ++ ws ++ body ++ fence)) eqn:Ht.
  - (* the text reads as a tagged fence: no white space, "html" first *)
    destruct ws as [|w ws'].
    + destruct body as [|a [|b [|c [|d r]]]];
        try (cbn in Ht; rewrite ?andb_false_r in Ht; discriminate Ht).
      cbn in Ht. rewrite !andb_true_r in Ht.
      apply andb_true_iff in Ht as [Ha Ht].
      apply andb_true_iff in Ht as [Hb Ht].
      apply andb_true_iff in Ht as [Hc Hd].
      apply N.eqb_eq in Ha, Hb, Hc, Hd. subst a b c d.
      destruct (@cleanup_tagged_tail [] r eq_refl) as [k Hk].
      exists (4 + k). exact Hk.
    + cbn in Ht, Hws. apply andb_true_iff in Ht as [Hw _].
      apply N.eqb_eq in Hw. subst w. discriminate Hws.
  - rewrite cleanup_strip. unfold strip_open_html. rewrite Ht.
    unfold strip_open. rewrite starts_with_app.
    change (skipn 3 (fence ++ ws ++ body ++ fence))
      with (ws ++ body ++ fence).
    rewrite skip_ws_spaces by exact Hws.
    rewrite skip_ws_app_fence, strip_close_app.
    apply skip_ws_tail.
Qed.


(** What is left of the enclosed text once the closing fence is gone:
    the untagged pattern has had its turn on it. *)
Lemma strip_rest_exact b1 :
  strip_close (strip_open (b1 ++ fence)) = strip_open b1.
Proof.
  unfold strip_open.
  destruct b1 as [|x [|y [|z r]]].
  - reflexivity.
  - cbn [app]. destruct (starts_with fence (x :: fence)) eqn:Hs.
    + cbn in Hs. rewrite !andb_true_r in Hs.
      apply N.eqb_eq in Hs. subst x. reflexivity.
    + cbn [starts_with fence lit]. rewrite andb_false_r.
      apply (strip_close_app [x]).
  - cbn [app]. destruct (starts_with fence (x :: y :: fence)) eqn:Hs.
    + cbn in Hs. rewrite !andb_true_r in Hs.
      apply andb_true_iff in Hs as [Hx Hy].
      apply N.eqb_eq in Hx, Hy. subst x y. reflexivity.
    + cbn [starts_with fence lit]. rewrite !andb_false_r.
      apply (strip_close_app [x; y]).
  - change (starts_with fence ((x :: y :: z :: r) ++ fence))
      with (starts_with fence (x :: y :: z :: r)).
    destruct (starts_with fence (x :: y :: z :: r)).
    + change (skipn 3 ((x :: y :: z :: r) ++ fence)) with (r ++ fence).
      rewrite skip_ws_app_fence. apply strip_close_app.
    + apply strip_close_app.
Qed.

Lemma cleanup_tagged_exact ws body :
  forallb is_space ws = true ->
  cleanup (fence_html ++ ws ++ body ++ fence) = strip_open (skip_ws body).
Proof.
  intros Hws. rewrite cleanup_strip.
  unfold strip_open_html. rewrite starts_with_app.
  change (skipn 7 (fence_html ++ ws ++ body ++ fence))
    with (ws ++ body ++ fence).
  rewrite skip_ws_spaces by exact Hws. rewrite skip_ws_app_fence.
  apply strip_rest_exact.
Qed.

(** Whether an untagged fence reads as the tagged one: no white space
    after it, and "html" first in the enclosed text. *)
Lemma starts_with_html_body ws body :
  forallb is_space ws = true ->
  starts_with fence_html (fence ++ ws ++ body ++ fence)
  = starts_with (lit "html") (ws ++ body).
Proof.
  intros Hws.
  change (starts_with fence_html (fence ++ ws ++ body ++ fence))
    with (starts_with (lit "html") (ws ++ body ++ fence)).
  destruct ws as [|w ws'].
  - cbn [app].
    destruct body as [|a [|b [|c [|d r]]]]; cbn;
      rewrite ?andb_false_r, ?andb_true_r; reflexivity.
  - cbn [forallb] in Hws. apply andb_true_iff in Hws as [Hw _].
    cbn [app starts_with lit].
    destruct (N.eqb_spec w (N_of_ascii "h")) as [->|_]; [|reflexivity].
    discriminate Hw.
Qed.

Lemma cleanup_untagged_exact ws body :
  forallb is_space ws = true ->
  cleanup (fence ++ ws ++ body ++ fence)
  = if starts_with (lit "html") (ws ++ body)
    then strip_open (skip_ws (skipn 4 body))
    else skip_ws body.
Proof.
  intros Hws.
  rewrite <- (starts_with_html_body ws body Hws).
  destruct (starts_with fence_html (fence ++ ws ++ body ++ fence)) eqn:Ht.
  - destruct ws as [|w ws'].
    + rewrite (starts_with_html_body [] body eq_refl) in Ht.
      cbn [app] in Ht.
      apply starts_with_split in Ht.
      change (List.length (lit "html")) with 4 in Ht.
      rewrite Ht at 1.
      change (fence ++ [] ++ (lit "html" ++ skipn 4 body) ++ fence)
        with (fence_html ++ [] ++ skipn 4 body ++ fence).
      now apply cleanup_tagged_exact.
    + rewrite (starts_with_html_body (w :: ws') body Hws) in Ht.
      cbn [forallb] in Hws. apply andb_true_iff in Hws as [Hw _].
      cbn [app starts_with lit] in Ht.
      apply andb_true_iff in Ht as [Ht _].
      apply N.eqb_eq in Ht. subst w. discriminate Hw.
  - rewrite cleanup_strip. unfold strip_open_html. rewrite Ht.
    unfold strip_open. rewrite starts_with_app.
    change (skipn 3 (fence ++ ws ++ body ++ fence))
      with (ws ++ body ++ fence).
    rewrite skip_ws_spaces by exact Hws.
    rewrite skip_ws_app_fence. apply strip_close_app.
Qed.

(** C3, as the code has it.  A code-fence wrapper that sits at the very
    start and the very end of the answer is stripped: the opening fence,
    tagged [html] or not, with the white space [ws] after it, as a
    prefix, and the closing fence as a suffix.  What is returned is the
    text [body] between the two without its leading white space; after a
    tagged opening fence the untagged pattern has its turn as well, so a
    further fence that the text then begins with goes too, with the white
    space after it (and an untagged fence directly followed by "html" is
    the tagged fence).  The result is therefore always a tail of [body],
    and [body] itself when that begins with neither white space nor a
    fence.  An answer [t] that neither starts nor ends with a fence is
    returned as it is, so the clean-up is idempotent on it. *)
Theorem cleanup_strips_anchored_fences (ws body t : jsstring) :
  forallb is_space ws = true ->
  fence_free t = true ->
  cleanup (fence_html ++ ws ++ body ++ fence) = strip_open (skip_ws body)
  /\ cleanup (fence ++ ws ++ body ++ fence)
     = (if starts_with (lit "html") (ws ++ body)
        then strip_open (skip_ws (skipn 4 body))
        else skip_ws body)
  /\ (exists k, cleanup (fence_html ++ ws ++ body ++ fence) = skipn k body)
  /\ (exists k, cleanup (fence ++ ws ++ body ++ fence) = skipn k body)
  /\ (no_leading_space body = true ->
      starts_with fence body = false ->
      cleanup (fence_html ++ ws ++ body ++ fence) = body)
  /\ (no_leading_space body = true ->
      starts_with (lit "html") (ws ++ body) = false ->
      cleanup (fence ++ ws ++ body ++ fence) = body)
  /\ cleanup t = t
  /\ cleanup (cleanup t) = cleanup t.
Proof.
  intros Hws Hfree.
  split; [|split; [|split; [|split; [|split; [|split; [|split]]]]]].
  - now apply cleanup_tagged_exact.
  - now apply cleanup_untagged_exact.
  - now apply cleanup_tagged_tail.
  - now apply cleanup_untagged_tail.
  - intros; now apply cleanup_tagged.
  - intros Hclean Htag. apply cleanup_untagged; [exact Hws | exact Hclean |].
    now rewrite starts_with_html_body.
  - now apply fence_free_unchanged.
  - now rewrite !(fence_free_unchanged t Hfree).
Qed.

Lemma cleanup_strips_anchored_fences_witness :
  cleanup (fence_html ++ [10%N] ++ lit "<p>hi</p>" ++ fence) = lit "<p>hi</p>"
  /\ cleanup (fence ++ [10%N] ++ lit "<p>hi</p>" ++ fence) = lit "<p>hi</p>"
  /\ cleanup (fence_html ++ [10%N] ++ (fence ++ lit "js" ++ [10%N] ++ lit "x") ++ fence)
     = lit "js" ++ [10%N] ++ lit "x"
  /\ cleanup (lit "<p>hi</p>") = lit "<p>hi</p>".
Proof.
  destruct (@cleanup_strips_anchored_fences
              [10%N] (lit "<p>hi</p>") (lit "<p>hi</p>")
              eq_refl eq_refl) as (_ & _ & _ & _ & H1 & H2 & H3 & _).
  destruct (@cleanup_strips_anchored_fences
              [10%N] (fence ++ lit "js" ++ [10%N] ++ lit "x") (lit "<p>hi</p>")
              eq_refl eq_refl) as (H4 & _).
  split; [|split; [|split]];
    [apply H1 | apply H2 | rewrite H4 | exact H3]; reflexivity.
Defined.

(** C3 as stated fails: an answer wrapped in a tagged fence whose closing
    fence is followed by a line feed keeps that closing fence, since [$]
    matches at the end of the input only. *)
Lemma cleanup_keeps_fence_before_final_newline :
  let raw := fence_html ++ [10%N] ++ lit "<p>hi</p>" ++ [10%N]
             ++ fence ++ [10%N] in
  cleanup raw = lit "<p>hi</p>" ++ [10%N] ++ fence ++ [10%N]
  /\ includes fence (cleanup raw) = true.
Proof. split; reflexivity. Qed.

(** The same before the opening fence: a leading line feed keeps both
    the opening fence and its tag. *)
Lemma cleanup_keeps_fence_after_leading_newline :
  cleanup ([10%N] ++ fence_html ++ [10%N] ++ lit "<p>hi</p>" ++ fence)
  = [10%N] ++ fence_html ++ [10%N] ++ lit "<p>hi</p>".
Proof. reflexivity. Qed.

End CleanupFacts.
(** ** C9 and C10: the prompt that is sent, the answer without text *)

Section GeminiFacts.

Variable svc : remote.

Lemma getGenAIClient_present key :
  key <> [] -> getGenAIClient (Some key) = Returns key.
Proof. destruct key; [contradiction | reflexivity]. Qed.

(** With a key, [bringToLife] hands the service the request built from
    its arguments and cleans the text of the answer. *)
Lemma bringToLife_sends key prompt fileBase64 mimeType :
  key <> [] ->
  bringToLife (Some key) svc prompt fileBase64 mimeType =
  match svc key (bringToLife_request prompt fileBase64 mimeType) with
  | Throws e => Throws e
  | Returns text => Returns (cleanup (or_else text FAILURE_PLACEHOLDER))
  end.
Proof.
  intros Hk. unfold bringToLife. now rewrite getGenAIClient_present.
Qed.

Lemma updateCode_sends key currentHtml userPrompt :
  key <> [] ->
  updateCode (Some key) svc currentHtml userPrompt =
  match svc key (updateCode_request currentHtml userPrompt) with
  | Throws e => Throws e
  | Returns text => Returns (cleanup (or_else text currentHtml))
  end.
Proof.
  intros Hk. unfold updateCode. now rewrite getGenAIClient_present.
Qed.

Lemma or_else_empty_answer (o : outcome (option jsstring)) (d : jsstring) :
  empty_answer o -> exists text, o = Returns text /\ or_else text d = d.
Proof. intros [-> | ->]; eexists; split; reflexivity. Qed.

Lemma bringToLife_empty_answer key prompt fileBase64 mimeType :
  key <> [] ->
  empty_answer (svc key (bringToLife_request prompt fileBase64 mimeType)) ->
  bringToLife (Some key) svc prompt fileBase64 mimeType
  = Returns FAILURE_PLACEHOLDER.
Proof.
  intros Hk H. rewrite bringToLife_sends by assumption.
  destruct (or_else_empty_answer FAILURE_PLACEHOLDER H) as (text & -> & ->).
  reflexivity.
Qed.

Lemma updateCode_empty_answer key currentHtml userPrompt :
  key <> [] ->
  empty_answer (svc key (updateCode_request currentHtml userPrompt)) ->
  updateCode (Some key) svc currentHtml userPrompt
  = Returns (cleanup currentHtml).
Proof.
  intros Hk H. rewrite updateCode_sends by assumption.
  destruct (or_else_empty_answer currentHtml H) as (text & -> & ->).
  reflexivity.
Qed.

End GeminiFacts.

(** C9, as the code has it.  With a key stored, [bringToLife] consults
    the service once, with the request described here, and returns what it
    makes of the answer.  Without a file and with the empty prompt the
    request holds one part, the default demo prompt, which is not the
    empty string.  With a file whose payload [b] is not empty the text
    part is the fixed analysis directive whatever the prompt was, and the
    payload follows as inline data when there is a media type.  A file
    whose payload is the empty string counts as no file: the text part is
    the prompt (the default prompt when that is empty), and nothing is
    attached. *)
Theorem prompt_sent_default_or_directive
  (key : jsstring) (svc : remote) (prompt b : jsstring)
  (mimeType : option jsstring) :
  key <> [] ->
  (bringToLife (Some key) svc [] None mimeType
   = bringToLife_answer
       (svc key {| contents := [TextPart DEFAULT_PROMPT];
                   systemInstruction := SYSTEM_INSTRUCTION |})
   /\ DEFAULT_PROMPT <> [])
  /\ (b <> [] ->
      bringToLife (Some key) svc prompt (Some b) mimeType
      = bringToLife_answer
          (svc key {| contents :=
                        TextPart FILE_DIRECTIVE ::
                        match mimeType with
                        | Some ((_ :: _) as m) => [InlineData b m]
                        | _ => []
                        end;
                      systemInstruction := SYSTEM_INSTRUCTION |}))
  /\ bringToLife (Some key) svc prompt (Some []) mimeType
     = bringToLife_answer
         (svc key {| contents := [TextPart (or_else (Some prompt) DEFAULT_PROMPT)];
                     systemInstruction := SYSTEM_INSTRUCTION |})
  /\ bringToLife (Some key) svc prompt None mimeType
     = bringToLife_answer
         (svc key {| contents := [TextPart (or_else (Some prompt) DEFAULT_PROMPT)];
                     systemInstruction := SYSTEM_INSTRUCTION |}).
Proof.
  intros Hk. split; [split|split; [|split]].
  - now rewrite bringToLife_sends.
  - discriminate.
  - intros Hb. rewrite bringToLife_sends by exact Hk.
    destruct b as [|b0 b']; [contradiction|].
    destruct mimeType as [[|m0 m']|]; reflexivity.
  - now rewrite bringToLife_sends.
  - now rewrite bringToLife_sends.
Qed.

Lemma prompt_sent_default_or_directive_witness :
  bringToLife (Some (lit "k")) echo_service (lit "draw a cat")
    (Some (lit "aGk=")) (Some (lit "image/png"))
  = Returns FILE_DIRECTIVE
  /\ bringToLife (Some (lit "k")) echo_service [] None None
     = Returns DEFAULT_PROMPT.
Proof.
  destruct (@prompt_sent_default_or_directive (lit "k") echo_service
              (lit "draw a cat") (lit "aGk=") (Some (lit "image/png")))
    as (_ & H2 & _); [discriminate|].
  destruct (@prompt_sent_default_or_directive (lit "k") echo_service
              (lit "draw a cat") (lit "aGk=") None)
    as ((H1 & _) & _); [discriminate|].
  split.
  - rewrite H2 by discriminate. reflexivity.
  - rewrite H1. reflexivity.
Defined.

(** C9 as stated fails: a file is attached, but its payload is the empty
    string (an empty file read as a data URL has nothing after the
    comma); the prompt goes to the service as typed, not the directive.
    The service here answers with the text part it was sent. *)
Lemma empty_file_payload_keeps_the_prompt :
  let file := {| file_name := lit "empty.png";
                 file_type := lit "image/png";
                 file_base64 := Returns [] |} in
  let s' := handleGenerate sample_env echo_service (lit "<p>cat</p>")
              (Some file) (session [] None) in
  bringToLife (Some (lit "k")) echo_service (lit "<p>cat</p>")
    (Some []) (Some (lit "image/png"))
  = Returns (lit "<p>cat</p>")
  /\ request_text
       (bringToLife_request (lit "<p>cat</p>") (Some []) (Some (lit "image/png")))
     <> Some FILE_DIRECTIVE
  /\ option_map html (activeCreation s') = Some (str (lit "<p>cat</p>")).
Proof.
  split; [reflexivity|]. split; [discriminate | reflexivity].
Qed.

(** The directive replaces the prompt for every non-empty file payload,
    with or without a media type. *)
Lemma finalPrompt_file prompt d ds :
  finalPrompt prompt (Some (d :: ds)) = FILE_DIRECTIVE.
Proof. reflexivity. Qed.

(** A non-empty prompt without a file is sent as it is. *)
Lemma finalPrompt_verbatim c prompt :
  finalPrompt (c :: prompt) None = c :: prompt.
Proof. reflexivity. Qed.

(** C10, as the code has it.  When the service answers a revision
    without text (absent or empty), [updateCode] returns [currentHtml]
    after the same clean-up, which is [currentHtml] itself whenever that
    neither starts nor ends with a fence; when it answers a generation
    without text, [bringToLife] returns the failure comment, which is not
    the empty string; both return, neither throws. *)
Theorem empty_answer_fallbacks
  (key : jsstring) (svc : remote)
  (currentHtml userPrompt prompt : jsstring)
  (fileBase64 mimeType : option jsstring) :
  key <> [] ->
  (empty_answer (svc key (updateCode_request currentHtml userPrompt)) ->
   updateCode (Some key) svc currentHtml userPrompt
     = Returns (cleanup currentHtml)
   /\ (fence_free currentHtml = true ->
       updateCode (Some key) svc currentHtml userPrompt
       = Returns currentHtml))
  /\ (empty_answer (svc key (bringToLife_request prompt fileBase64 mimeType)) ->
      bringToLife (Some key) svc prompt fileBase64 mimeType
      = Returns FAILURE_PLACEHOLDER)
  /\ FAILURE_PLACEHOLDER <> [].
Proof.
  intros Hkey. split; [|split].
  - intros Hu. split.
    + now apply updateCode_empty_answer.
    + intros Hfree. rewrite updateCode_empty_answer by assumption.
      now rewrite fence_free_unchanged.
  - intros Hb. now apply bringToLife_empty_answer.
  - discriminate.
Qed.

Lemma empty_answer_fallbacks_witness :
  let svc : remote := fun _ _ => Returns None in
  updateCode (Some (lit "k")) svc (lit "<p>ok</p>") (lit "make it blue")
    = Returns (lit "<p>ok</p>")
  /\ bringToLife (Some (lit "k")) svc [] None None
     = Returns FAILURE_PLACEHOLDER.
Proof.
  intros svc.
  destruct (@empty_answer_fallbacks (lit "k") svc
              (lit "<p>ok</p>") (lit "make it blue") [] None None)
    as (H1 & H2 & _).
  - discriminate.
  - split.
    + apply H1; [left|]; reflexivity.
    + apply H2. left; reflexivity.
Defined.

(** C10 as stated fails: the fallback goes through the clean-up too, so
    an artifact that ends with a fence comes back without it. *)
Lemma updateCode_fallback_is_cleaned :
  let svc : remote := fun _ _ => Returns None in
  let currentHtml := lit "<pre>code</pre>" ++ fence in
  updateCode (Some (lit "k")) svc currentHtml (lit "make it blue")
    = Returns (lit "<pre>code</pre>")
  /\ lit "<pre>code</pre>" <> currentHtml.
Proof. split; [reflexivity | discriminate]. Qed.

(* ================================================================== *)
(** ** The creation store *)

(** *** Values *)

Section ValueFacts.

Lemma strict_eq_str a i : strict_eq a (str i) = true <-> a = str i.
Proof.
  unfold str. destruct a as [[| b | f | x | items | fields]|];
    cbn [strict_eq]; try (split; [discriminate | intros [=]]).
  rewrite jsstring_eqb_eq. split; [now intros -> | now intros [= ->]].
Qed.

Lemma strict_eq_str_false a i : strict_eq a (str i) = false <-> a <> str i.
Proof.
  rewrite <- strict_eq_str. destruct (strict_eq a (str i)); split; congruence.
Qed.

Lemma strict_eq_str_refl i : strict_eq (str i) (str i) = true.
Proof. now apply strict_eq_str. Qed.

(** [===] is symmetric. *)
Lemma SFeqb_sym f1 f2 : SFeqb f1 f2 = SFeqb f2 f1.
Proof.
  unfold SFeqb, SFcompare.
  destruct f1 as [s1|s1| |s1 m1 e1], f2 as [s2|s2| |s2 m2 e2];
    try destruct s1; try destruct s2; try reflexivity.
  - rewrite (Z.compare_antisym e1 e2).
    change (PosDef.Pos.compare_cont Eq m2 m1) with (Pos.compare m2 m1).
    change (PosDef.Pos.compare_cont Eq m1 m2) with (Pos.compare m1 m2).
    rewrite (Pos.compare_antisym m1 m2).
    destruct (e1 ?= e2)%Z; cbn; try reflexivity.
    destruct (m1 ?= m2)%positive; reflexivity.
  - rewrite (Z.compare_antisym e1 e2).
    change (PosDef.Pos.compare_cont Eq m2 m1) with (Pos.compare m2 m1).
    change (PosDef.Pos.compare_cont Eq m1 m2) with (Pos.compare m1 m2).
    rewrite (Pos.compare_antisym m1 m2).
    destruct (e1 ?= e2)%Z; cbn; try reflexivity.
    destruct (m1 ?= m2)%positive; reflexivity.
Qed.

Lemma jsstring_eqb_sym a b : JsString.eqb a b = JsString.eqb b a.
Proof.
  destruct (JsString.eqb a b) eqn:E.
  - apply jsstring_eqb_eq in E. subst b. symmetry. apply jsstring_eqb_refl.
  - apply jsstring_eqb_neq in E. symmetry. apply jsstring_eqb_neq.
    intros H. apply E. now symmetry.
Qed.

Lemma strict_eq_sym a b : strict_eq a b = strict_eq b a.
Proof.
  destruct a as [[| x | x | x | x | x]|], b as [[| y | y | y | y | y]|];
    cbn [strict_eq]; try reflexivity.
  - now destruct x, y.
  - rewrite !FloatAxioms.eqb_spec. apply SFeqb_sym.
  - apply jsstring_eqb_sym.
Qed.

Lemma truthy_str s : truthy_json (str s) = truthy s.
Proof. reflexivity. Qed.

Lemma truthy_nonempty s : s <> [] -> truthy s = true.
Proof. destruct s; [contradiction | reflexivity]. Qed.


(** On a page that is a string [handleUpdate] calls [updateCode] as
    typed. *)
Lemma updateCode_untyped_str apiKey svc h prompt :
  updateCode_untyped apiKey svc (str h) prompt = updateCode apiKey svc h prompt.
Proof. reflexivity. Qed.

End ValueFacts.

(** *** State projections *)

Section Projections.

Lemma history_saveEffect env s : history (saveEffect env s) = history s.
Proof.
  unfold saveEffect.
  destruct (history s) eqn:H; destruct (setItem_succeeds env); cbn; auto.
Qed.

Lemma activeCreation_saveEffect env s :
  activeCreation (saveEffect env s) = activeCreation s.
Proof.
  unfold saveEffect. destruct (history s); [reflexivity|].
  destruct (setItem_succeeds env); reflexivity.
Qed.


Lemma alerts_saveEffect env s : alerts (saveEffect env s) = alerts s.
Proof.
  unfold saveEffect. destruct (history s); [reflexivity|].
  destruct (setItem_succeeds env); reflexivity.
Qed.

Lemma history_handleError e s : history (handleError e s) = history s.
Proof.
  unfold handleError.
  destruct (JsString.eqb _ _); [reflexivity|].
  destruct (_ || _); reflexivity.
Qed.

Lemma stored_handleError e s :
  gemini_app_history (handleError e s) = gemini_app_history s.
Proof.
  unfold handleError.
  destruct (JsString.eqb _ _); [reflexivity|].
  destruct (_ || _); reflexivity.
Qed.

Lemma activeCreation_handleError e s :
  activeCreation (handleError e s) = activeCreation s.
Proof.
  unfold handleError.
  destruct (JsString.eqb _ _); [reflexivity|].
  destruct (_ || _); reflexivity.
Qed.

Lemma isGenerating_handleError e s :
  isGenerating (handleError e s) = isGenerating s.
Proof.
  unfold handleError.
  destruct (JsString.eqb _ _); [reflexivity|].
  destruct (_ || _); reflexivity.
Qed.


End Projections.

(** *** What a run of each adding handler leaves behind *)

Section HandlerOutcomes.

Variables (env : Env) (svc : remote).


Lemma length_prependCapped c prev :
  List.length (prependCapped c prev) <= MAX_HISTORY_ITEMS.
Proof. unfold prependCapped. apply firstn_le_length. Qed.

Lemma prependCapped_cons c h :
  prependCapped c h = c :: firstn (MAX_HISTORY_ITEMS - 1) h.
Proof. reflexivity. Qed.



Lemma generated_state_facts file imageBase64 mimeType html0 s :
  let c := newCreation env file imageBase64 mimeType html0 in
  let s' := generated_state env file imageBase64 mimeType html0 s in
  history s' = prependCapped c (history s)
  /\ activeCreation s' = Some c
  /\ isGenerating s' = false
  /\ alerts s' = alerts s.
Proof.
  cbn zeta. unfold generated_state.
  cbn [history activeCreation isGenerating alerts setIsGenerating].
  now rewrite history_saveEffect, activeCreation_saveEffect, alerts_saveEffect.
Qed.


(** An import that passes the validation. *)
Lemma handleImportFile_accepted fields s :
  truthy_json (lookup (lit "html") fields) = true ->
  truthy_json (lookup (lit "name") fields) = true ->
  handleImportFile env (Parsed (JObj fields)) s
  = setActiveCreation (Some (importedCreation env fields))
      (if existsb (fun x => strict_eq (id x) (id (importedCreation env fields)))
                  (history s)
       then s
       else saveEffect env
              (setHistory (importInto (importedCreation env fields) (history s))
                 s)).
Proof.
  intros Hh Hn. unfold handleImportFile, prop. now rewrite Hh, Hn.
Qed.

(** Whatever is falsy in [html] or in [name] is turned away with the
    invalid-format alert, for every document but [null]. *)
Lemma handleImportFile_falsy v s :
  v <> JNull ->
  truthy_json (field v (lit "html")) = false
  \/ truthy_json (field v (lit "name")) = false ->
  handleImportFile env (Parsed v) s = alert MsgInvalidFileFormat s.
Proof.
  intros Hnull H. unfold handleImportFile.
  destruct v as [| b | f | x | items | fields]; try reflexivity.
  - contradiction.
  - cbn [prop field] in *.
    destruct H as [H | H]; rewrite H; [reflexivity|].
    now rewrite andb_false_r.
Qed.

(** Reading a property of [null] throws; the handler catches it. *)
Lemma handleImportFile_null s :
  handleImportFile env (Parsed JNull) s = alert MsgImportFailed s.
Proof. reflexivity. Qed.

(** The ways an import ends: rejected with an alert, or accepted with
    the record built from the object. *)
Lemma handleImportFile_cases r s :
  (exists m, handleImportFile env r s = alert m s)
  \/ exists fields,
       r = Parsed (JObj fields)
       /\ truthy_json (lookup (lit "html") fields) = true
       /\ truthy_json (lookup (lit "name") fields) = true
       /\ handleImportFile env r s
          = setActiveCreation (Some (importedCreation env fields))
              (if existsb (fun x => strict_eq (id x)
                                      (id (importedCreation env fields)))
                          (history s)
               then s
               else saveEffect env
                      (setHistory
                         (importInto (importedCreation env fields) (history s))
                         s)).
Proof.
  destruct r as [|v]; [left; now eexists|].
  destruct v as [| b | f | x | items | fields];
    try (left; now eexists).
  destruct (truthy_json (lookup (lit "html") fields)) eqn:Hh.
  - destruct (truthy_json (lookup (lit "name") fields)) eqn:Hn.
    + right. exists fields. split; [reflexivity|].
      split; [exact Hh|]. split; [exact Hn|].
      now apply handleImportFile_accepted.
    + left. exists MsgInvalidFileFormat.
      apply handleImportFile_falsy; [discriminate | now right].
  - left. exists MsgInvalidFileFormat.
    apply handleImportFile_falsy; [discriminate | now left].
Qed.

Lemma history_import_accepted c s :
  history
    (setActiveCreation (Some c)
       (if existsb (fun x => strict_eq (id x) (id c)) (history s)
        then s
        else saveEffect env (setHistory (importInto c (history s)) s)))
  = importInto c (history s).
Proof.
  unfold importInto.
  destruct (existsb _ (history s)) eqn:He; [reflexivity|].
  cbn [history setActiveCreation]. rewrite history_saveEffect.
  cbn [history setHistory]. now rewrite ?He.
Qed.

Lemma stored_import_known c s :
  existsb (fun x => strict_eq (id x) (id c)) (history s) = true ->
  (if existsb (fun x => strict_eq (id x) (id c)) (history s)
   then s
   else saveEffect env (setHistory (importInto c (history s)) s)) = s.
Proof. now intros ->. Qed.

(** The two ways [handleGenerate] ends. *)
Lemma handleGenerate_cases promptText file s :
  let s' := handleGenerate env svc promptText file s in
  isGenerating s' = false
  /\ ((activeCreation s' = None
       /\ history s' = history s
       /\ gemini_app_history s' = gemini_app_history s)
      \/ exists c,
           activeCreation s' = Some c
           /\ history s' = prependCapped c (history s)
           /\ id c = str (randomUUID env)
           /\ (exists page, html c = str page /\ page <> [])
           /\ timestamp c = now env
           /\ name c = str (match file with
                            | Some f => file_name f
                            | None => DEFAULT_NAME
                            end)
           /\ alerts s' = alerts s).
Proof.
  cbn zeta. split; [reflexivity|].
  unfold handleGenerate, handleGenerate_end.
  assert (Hfail : forall e,
    activeCreation (setIsGenerating false (handleError e (handleGenerate_begin s))) = None
    /\ history (setIsGenerating false (handleError e (handleGenerate_begin s))) = history s
    /\ gemini_app_history (setIsGenerating false (handleError e (handleGenerate_begin s)))
       = gemini_app_history s).
  { intros e. cbn [activeCreation history gemini_app_history setIsGenerating].
    now rewrite activeCreation_handleError, history_handleError,
                stored_handleError. }
  assert (Hok : forall imageBase64 mimeType html0, html0 <> [] ->
    exists c,
      activeCreation (generated_state env file imageBase64 mimeType html0 s) = Some c
      /\ history (generated_state env file imageBase64 mimeType html0 s)
         = prependCapped c (history s)
      /\ id c = str (randomUUID env)
      /\ (exists page, html c = str page /\ page <> [])
      /\ timestamp c = now env
      /\ name c = str (match file with
                       | Some f => file_name f
                       | None => DEFAULT_NAME
                       end)
      /\ alerts (generated_state env file imageBase64 mimeType html0 s) = alerts s).
  { intros imageBase64 mimeType html0 Hne.
    destruct (generated_state_facts file imageBase64 mimeType html0 s)
      as (H1 & H2 & _ & H4).
    exists (newCreation env file imageBase64 mimeType html0).
    split; [exact H2|]. split; [exact H1|]. split; [reflexivity|].
    split; [now exists html0|]. split; [reflexivity|].
    split; [reflexivity | exact H4]. }
  destruct file as [f|].
  - destruct (file_base64 f) as [b|e]; [|left; apply Hfail].
    destruct (bringToLife _ _ _ _ _) as [[|x html0]|e].
    + left. repeat split.
    + right. apply (Hok (Some b) (Some (file_type f)) (x :: html0)).
      discriminate.
    + left; apply Hfail.
  - destruct (bringToLife _ _ _ _ _) as [[|x html0]|e].
    + left. repeat split.
    + right. apply (Hok None None (x :: html0)). discriminate.
    + left; apply Hfail.
Qed.

(** The ways [handleUpdate] ends when there is an active creation. *)
Lemma handleUpdate_cases prompt s c :
  activeCreation s = Some c ->
  let s' := handleUpdate env svc prompt s in
  isGenerating s' = false
  /\ ((activeCreation s' = Some c
       /\ history s' = history s
       /\ gemini_app_history s' = gemini_app_history s)
      \/ exists newName newHtml,
           newHtml <> []
           /\ versionName env c = Some newName
           /\ activeCreation s'
              = Some (updatedCreation env c newName newHtml)
           /\ history s'
              = prependCapped (updatedCreation env c newName newHtml)
                  (history s)).
Proof.
  intros Ha. cbn zeta. unfold handleUpdate, handleUpdate_begin. rewrite Ha.
  unfold handleUpdate_end. split; [reflexivity|].
  assert (Hfail : forall e,
    activeCreation (setIsGenerating false (handleError e (setIsGenerating true s))) = Some c
    /\ history (setIsGenerating false (handleError e (setIsGenerating true s))) = history s
    /\ gemini_app_history (setIsGenerating false (handleError e (setIsGenerating true s)))
       = gemini_app_history s).
  { intros e. cbn [activeCreation history gemini_app_history setIsGenerating].
    rewrite activeCreation_handleError, history_handleError,
            stored_handleError.
    cbn. now rewrite Ha. }
  destruct (updateCode_untyped _ _ _ _) as [[|x newHtml]|e].
  - left. cbn. now rewrite Ha.
  - destruct (versionName env c) as [newName|] eqn:Hn; [|left; apply Hfail].
    right. exists newName, (x :: newHtml). split; [discriminate|].
    split; [reflexivity|].
    cbn [activeCreation history setIsGenerating].
    now rewrite activeCreation_saveEffect, history_saveEffect.
  - left; apply Hfail.
Qed.

End HandlerOutcomes.

(** *** C1: the bound and the order of the history *)

Section HistoryOrder.

Variable svc : remote.






End HistoryOrder.



(** At capacity, one more addition keeps 30 records, puts the new one at
    the head and drops the oldest. *)
Example add_at_capacity :
  let s' := handleGenerate sample_env page_service (lit "a clock") None
              (session thirty None) in
  List.length (history s') = 30
  /\ option_map id (hd_error (history s')) = Some (str (lit "new-id"))
  /\ existsb (fun x => strict_eq (id x) (id (sample 29))) (history s') = false.
Proof. repeat split. Qed.

(** *** C2: a revision is a new record in front of the old one *)

Section Revision.





(** The id of a revision is the one the platform draws; nothing compares
    it with the ids in use. *)
Example revise_with_an_id_in_use :
  let taken := {| id := str (lit "new-id"); name := str (lit "X");
                  html := str (lit "<p>hi</p>"); originalImage := None;
                  timestamp := Some 0%Z |} in
  let s := session [taken] (Some taken) in
  map id (history (handleUpdate sample_env page_service (lit "make it blue") s))
  = [str (lit "new-id"); str (lit "new-id")].
Proof. reflexivity. Qed.

End Revision.

(** *** C8: the active slot while a request is in flight *)

Section Generating.







(** Nor is the slot empty throughout a create request: an import
    accepted while the request is in flight fills it. *)
Example import_in_flight_fills_the_slot :
  let flying := handleGenerate_begin (session [sample 1] None) in
  let s' := handleImportFile sample_env (Parsed (JObj (document (lit "b")))) flying in
  isGenerating s' = true /\ activeCreation s' <> None.
Proof. split; [reflexivity | discriminate]. Qed.

End Generating.

(** *** C6: removing an id that is not there *)

Section Removal.

Lemma history_handleDeleteCreation env id0 s :
  history (handleDeleteCreation env id0 s)
  = filter (fun item => negb (strict_eq (id item) (str id0))) (history s).
Proof.
  unfold handleDeleteCreation. rewrite history_saveEffect.
  cbn [history setHistory].
  destruct (activeCreation s) as [a|]; [|reflexivity].
  destruct (strict_eq (id a) (str id0)); reflexivity.
Qed.

(** C6.  If no record of the collection has the id, removing that id
    leaves the collection as it is. *)
Theorem remove_absent_id_is_identity
  (env : Env) (id0 : jsstring) (s : state) :
  (forall c, In c (history s) -> id c <> str id0) ->
  history (handleDeleteCreation env id0 s) = history s.
Proof.
  intros H. rewrite history_handleDeleteCreation.
  apply forallb_filter_id. apply forallb_forall.
  intros c Hc. apply negb_true_iff. apply strict_eq_str_false. now apply H.
Qed.

Lemma remove_absent_id_is_identity_witness :
  let s := session [sample 1; sample 2] (Some (sample 1)) in
  history (handleDeleteCreation sample_env [3%N] s) = [sample 1; sample 2].
Proof.
  intros s.
  apply (@remove_absent_id_is_identity sample_env [3%N] s).
  intros c [<- | [<- | []]]; discriminate.
Defined.

(** Removing an id that is there takes its record out. *)
Example remove_present_id :
  history (handleDeleteCreation sample_env [1%N]
             (session [sample 1; sample 2] (Some (sample 1))))
  = [sample 2].
Proof. reflexivity. Qed.

End Removal.

(** *** C5: documents without a page or a name are rejected *)

Section ImportValidation.

(** What counts as lacking a non-empty property: a missing one, the
    empty string, [null], [false], zero. *)
Lemma lacks_nonempty_cases v k :
  field v k = None \/ field v k = Some (JStr [])
  \/ field v k = Some JNull \/ field v k = Some (JBool false)
  \/ field v k = Some (JNum PrimFloat.zero) ->
  lacks_nonempty v k.
Proof.
  unfold lacks_nonempty.
  intros [-> | [-> | [-> | [-> | ->]]]]; reflexivity.
Qed.

(** C5, as the code has it.  A document that has no non-empty [html] or
    no non-empty [name] (the property is missing, or is the empty string
    or another falsy value) is rejected.  For every such document but the
    bare [null] the import shows the invalid-format alert; for [null],
    whose property read throws, it shows the import-failed alert.  Either
    way it changes nothing else: the history, its persisted entry and the
    active creation are what they were. *)
Theorem import_rejects_incomplete (env : Env) (v : json) (s : state) :
  lacks_nonempty v (lit "html") \/ lacks_nonempty v (lit "name") ->
  let m := match v with JNull => MsgImportFailed | _ => MsgInvalidFileFormat end in
  handleImportFile env (Parsed v) s = alert m s
  /\ history (handleImportFile env (Parsed v) s) = history s
  /\ gemini_app_history (handleImportFile env (Parsed v) s)
     = gemini_app_history s
  /\ activeCreation (handleImportFile env (Parsed v) s) = activeCreation s
  /\ alerts (handleImportFile env (Parsed v) s) = alerts s ++ [m].
Proof.
  intros H m.
  assert (E : handleImportFile env (Parsed v) s = alert m s).
  { subst m. destruct v as [| b | f | x | items | fields] eqn:Hv;
      [reflexivity| | | | |];
      apply handleImportFile_falsy; try discriminate; exact H. }
  rewrite E. now repeat split.
Qed.

Lemma import_rejects_incomplete_witness :
  let s := session [sample 1] None in
  handleImportFile sample_env
    (Parsed (JObj [(lit "name", JStr (lit "X")); (lit "html", JNull)])) s
  = alert MsgInvalidFileFormat s
  /\ handleImportFile sample_env (Parsed (JObj [(lit "html", JStr (lit "<p>hi</p>"))])) s
     = alert MsgInvalidFileFormat s.
Proof.
  intros s. split.
  - apply (@import_rejects_incomplete sample_env
             (JObj [(lit "name", JStr (lit "X")); (lit "html", JNull)]) s).
    left. reflexivity.
  - apply (@import_rejects_incomplete sample_env
             (JObj [(lit "html", JStr (lit "<p>hi</p>"))]) s).
    right. reflexivity.
Defined.

(** C5 as stated fails for the document [null]: it has no [html] and no
    [name], and the import is turned away, but with the import-failed
    alert of the [catch], not the invalid-format one. *)
Lemma null_document_fails_as_import_error :
  let s := session [sample 1] None in
  lacks_nonempty JNull (lit "html")
  /\ handleImportFile sample_env (Parsed JNull) s = alert MsgImportFailed s
  /\ alerts (handleImportFile sample_env (Parsed JNull) s) = [MsgImportFailed]
  /\ handleImportFile sample_env (Parsed JNull) s <> alert MsgInvalidFileFormat s.
Proof.
  intros s. split; [reflexivity|]. split; [reflexivity|].
  split; [reflexivity | discriminate].
Qed.

(** A text that is no JSON at all is turned away with the import-failed
    alert. *)
Example import_syntax_error s :
  handleImportFile sample_env SyntaxError s = alert MsgImportFailed s.
Proof. reflexivity. Qed.

(** A page that is no string is a page: the document is accepted and the
    record holds the value as it is. *)
Example import_page_that_is_no_string :
  let doc := [ (lit "name", JStr (lit "X")); (lit "html", JArr []) ] in
  let s' := handleImportFile sample_env (Parsed (JObj doc)) (session [sample 1] None) in
  option_map html (activeCreation s') = Some (Some (JArr []))
  /\ List.length (history s') = 2
  /\ gemini_app_history s' = Some (Saved (history s')).
Proof. repeat split. Qed.

End ImportValidation.

(** *** C4: exporting a record and importing it again *)

Section ExportImport.

Variable env : Env.

Lemma importedCreation_creationJSON c fields i n h :
  creationJSON env c = JObj fields ->
  id c = str i -> name c = str n -> html c = str h ->
  i <> [] ->
  lookup (lit "html") fields = str h
  /\ lookup (lit "name") fields = str n
  /\ importedCreation env fields = reimported env c.
Proof.
  intros [= <-] Hid Hname Hhtml Hne.
  destruct c as [ci cn ch img ts]. cbn [id name html] in Hid, Hname, Hhtml.
  subst ci cn ch.
  split; [reflexivity|]. split; [reflexivity|].
  unfold importedCreation, reimported, creationJSON.
  cbn [id name html originalImage timestamp].
  destruct i as [|i0 i']; [contradiction|].
  destruct img as [img|]; reflexivity.
Qed.



End ExportImport.



(** The id decides alone: a record with the empty id loses it on import,
    gets a fresh one, and enters the collection a second time. *)
Example export_then_import_empty_id_duplicates :
  let c := {| id := str []; name := str (lit "X"); html := str (lit "<p>hi</p>");
              originalImage := None; timestamp := Some 0%Z |} in
  let s := session [c] None in
  List.length
    (history (handleImportFile sample_env (Parsed (creationJSON sample_env c)) s))
  = 2.
Proof. reflexivity. Qed.

(** *** C7: the persisted entry after a change of the history *)

Section Persistence.

Variables (env : Env) (svc : remote).



Lemma persisted_reflects_handleError e s :
  persisted_reflects s -> persisted_reflects (handleError e s).
Proof.
  unfold persisted_reflects.
  now rewrite stored_handleError, history_handleError.
Qed.








End Persistence.


(** Removing the last record removes the entry, it does not store an
    empty list. *)
Example remove_last_record_clears_entry :
  let s' := handleDeleteCreation sample_env [1%N] (session [sample 1] None) in
  history s' = [] /\ gemini_app_history s' = None.
Proof. split; reflexivity. Qed.


(** With writes that succeed, the agreement of the entry with the
    history is kept by every handler, whether it changes the history or
    not. *)
Section PersistenceInvariant.

Variables (env : Env) (svc : remote).
Hypothesis storage_ok : setItem_succeeds env = true.


End PersistenceInvariant.

(* ================================================================== *)
(** ** Worked instances of the clean-up and of the handlers *)

Section Instances.

(** A fence alone is an opening fence. *)
Example cleanup_fence_alone : cleanup fence = [].
Proof. reflexivity. Qed.

(** Four backquotes: the opening pattern takes three of them. *)
Example cleanup_four_backquotes : cleanup (lit "````") = lit "`".
Proof. reflexivity. Qed.

(** After a tagged fence the untagged pattern gets its turn too. *)
Example cleanup_two_opening_fences :
  cleanup (fence_html ++ fence ++ lit "x") = lit "x".
Proof. reflexivity. Qed.

(** On a text that starts with two fences the clean-up is not
    idempotent: each pass takes one. *)
Example cleanup_not_idempotent_in_general :
  cleanup (fence ++ fence ++ lit "x") = fence ++ lit "x"
  /\ cleanup (cleanup (fence ++ fence ++ lit "x")) = lit "x".
Proof. split; reflexivity. Qed.

(** [\s*] takes every kind of white space, the ideographic space
    (U+3000) and the line separator (U+2028) included. *)
Example cleanup_unicode_space :
  cleanup (fence_html ++ [12288; 8232; 10]%N ++ lit "<p>hi</p>" ++ fence)
  = lit "<p>hi</p>".
Proof. reflexivity. Qed.

(** A tag other than [html] stays in the text. *)
Example cleanup_other_tag :
  cleanup (fence ++ lit "xml" ++ [10%N] ++ lit "<a/>" ++ fence)
  = lit "xml" ++ [10%N] ++ lit "<a/>".
Proof. reflexivity. Qed.

(** Without a key nothing is sent: [bringToLife] throws
    API_KEY_MISSING, and the handler opens the key dialog. *)
Example generate_without_key :
  let s := initial None None in
  let s' := handleGenerate sample_env page_service (lit "a clock") None s in
  bringToLife None page_service (lit "a clock") None None
  = Throws API_KEY_MISSING
  /\ isApiKeyModalOpen s' = true
  /\ history s' = []
  /\ isGenerating s' = false.
Proof. repeat split. Qed.

(** A fresh generation at work. *)
Example generate_adds_record :
  let s := session [sample 1] None in
  let s' := handleGenerate sample_env page_service (lit "a clock") None s in
  map id (history s') = [str (lit "new-id"); str [1%N]]
  /\ option_map name (activeCreation s') = Some (str DEFAULT_NAME)
  /\ option_map html (activeCreation s') = Some (str (lit "<p>v2</p>"))
  /\ gemini_app_history s' = Some (Saved (history s')).
Proof. repeat split. Qed.

(** An answer that is nothing but a fence cleans up to the empty page,
    and then no record is made. *)
Example generate_empty_page_adds_nothing :
  let svc : remote := fun _ _ => Returns (Some fence) in
  let s := session [sample 1] None in
  history (handleGenerate sample_env svc (lit "a clock") None s) = [sample 1]
  /\ activeCreation (handleGenerate sample_env svc (lit "a clock") None s)
     = None.
Proof. split; reflexivity. Qed.

(** An error whose text mentions 403 marks the key as invalid. *)
Example generate_refused :
  let svc : remote :=
    fun _ _ => Throws {| message := lit "403 Forbidden";
                         rendering := lit "Error: 403 Forbidden" |} in
  let s := session [sample 1] None in
  let s' := handleGenerate sample_env svc (lit "a clock") None s in
  apiStatus s' = invalid
  /\ alerts s' = [MsgKeyRejected]
  /\ isApiKeyModalOpen s' = true
  /\ activeCreation s' = None.
Proof. repeat split. Qed.

End Instances.

(* ================================================================== *)
(** * Further facts about the code *)

(** ** The clean-up and the generation client *)

Section CleanupMore.

Lemma strip_open_html_tail t : exists k, strip_open_html t = skipn k t.
Proof.
  unfold strip_open_html. destruct (starts_with fence_html t); [|now exists 0].
  destruct (skip_ws_tail (skipn 7 t)) as [k Hk].
  exists (k + 7). rewrite Hk. apply skipn_skipn.
Qed.

Lemma strip_open_tail t : exists k, strip_open t = skipn k t.
Proof.
  unfold strip_open. destruct (starts_with fence t); [|now exists 0].
  destruct (skip_ws_tail (skipn 3 t)) as [k Hk].
  exists (k + 3). rewrite Hk. apply skipn_skipn.
Qed.

Lemma strip_close_head t : exists m, strip_close t = firstn m t.
Proof.
  unfold strip_close. destruct (ends_with fence t).
  - now eexists.
  - exists (List.length t). now rewrite firstn_all.
Qed.

(** X1.  The clean-up only takes text off the two ends: its result sits
    in the answer as one piece, so nothing inside is altered and the
    result is never longer than the answer. *)
Theorem cleanup_returns_a_piece_of_the_answer (t : jsstring) :
  (exists pre post, t = pre ++ cleanup t ++ post)
  /\ List.length (cleanup t) <= List.length t.
Proof.
  rewrite cleanup_strip.
  destruct (strip_open_html_tail t) as [k1 H1].
  destruct (strip_open_tail (strip_open_html t)) as [k2 H2].
  destruct (strip_close_head (strip_open (strip_open_html t))) as [m H3].
  assert (E : exists pre post,
             t = pre ++ strip_close (strip_open (strip_open_html t)) ++ post).
  { exists (firstn k1 t ++ firstn k2 (skipn k1 t)),
           (skipn m (skipn k2 (skipn k1 t))).
    rewrite H3, H2, H1. rewrite <- app_assoc.
    now rewrite !firstn_skipn. }
  split; [exact E|].
  destruct E as (pre & post & E).
  rewrite E at 2. rewrite !length_app. lia.
Qed.

(** X2.  The clean-up written with regular expressions is three
    removals in a row: the prefix "```html" with the white space after
    it, then the prefix "```" with the white space after it, then the
    suffix "```"; each is made only where the text has that prefix or
    suffix. *)
Theorem cleanup_is_three_removals (t : jsstring) :
  cleanup t =
  let t1 := if starts_with fence_html t then skip_ws (skipn 7 t) else t in
  let t2 := if starts_with fence t1 then skip_ws (skipn 3 t1) else t1 in
  if ends_with fence t2 then firstn (List.length t2 - 3) t2 else t2.
Proof. apply cleanup_strip. Qed.

End CleanupMore.

Section ClientMore.

Variable svc : remote.

(** X3.  Without a stored key (none, or the empty string) both calls
    throw API_KEY_MISSING whatever the service would answer; with a key, a
    throw of the service comes out of both calls as it is. *)
Theorem client_failures
  (apiKey : option jsstring) (key : jsstring) (e : js_error)
  (prompt currentHtml : jsstring) (fileBase64 mimeType : option jsstring) :
  (truthy_opt apiKey = false ->
   bringToLife apiKey svc prompt fileBase64 mimeType = Throws API_KEY_MISSING
   /\ updateCode apiKey svc currentHtml prompt = Throws API_KEY_MISSING)
  /\ (key <> [] ->
      svc key (bringToLife_request prompt fileBase64 mimeType) = Throws e ->
      bringToLife (Some key) svc prompt fileBase64 mimeType = Throws e)
  /\ (key <> [] ->
      svc key (updateCode_request currentHtml prompt) = Throws e ->
      updateCode (Some key) svc currentHtml prompt = Throws e).
Proof.
  split; [|split].
  - intros H. destruct apiKey as [[|k ks]|]; try discriminate H;
      split; reflexivity.
  - intros Hk H. rewrite bringToLife_sends by exact Hk. now rewrite H.
  - intros Hk H. rewrite updateCode_sends by exact Hk. now rewrite H.
Qed.

(** X4.  An answer that is not empty and neither starts nor ends with a
    fence is what [bringToLife] and [updateCode] return, unchanged. *)
Theorem clean_answer_passes_through
  (key text prompt currentHtml : jsstring)
  (fileBase64 mimeType : option jsstring) :
  key <> [] -> text <> [] -> fence_free text = true ->
  (svc key (bringToLife_request prompt fileBase64 mimeType)
   = Returns (Some text) ->
   bringToLife (Some key) svc prompt fileBase64 mimeType = Returns text)
  /\ (svc key (updateCode_request currentHtml prompt) = Returns (Some text) ->
      updateCode (Some key) svc currentHtml prompt = Returns text).
Proof.
  intros Hk Ht Hfree.
  assert (E : forall d, cleanup (or_else (Some text) d) = text).
  { intros d. destruct text; [contradiction|].
    cbn [or_else]. now apply fence_free_unchanged. }
  split; intros H.
  - rewrite bringToLife_sends by exact Hk. now rewrite H, E.
  - rewrite updateCode_sends by exact Hk. now rewrite H, E.
Qed.

End ClientMore.

Lemma client_failures_witness :
  bringToLife (Some []) page_service (lit "a clock") None None
  = Throws API_KEY_MISSING
  /\ updateCode None page_service (lit "<p>hi</p>") (lit "a clock")
     = Throws API_KEY_MISSING.
Proof.
  split.
  - apply (proj1 (@client_failures page_service (Some []) (lit "k")
                    API_KEY_MISSING (lit "a clock") (lit "<p>hi</p>")
                    None None)).
    reflexivity.
  - apply (proj1 (@client_failures page_service None (lit "k")
                    API_KEY_MISSING (lit "a clock") (lit "<p>hi</p>")
                    None None)).
    reflexivity.
Defined.

Lemma clean_answer_passes_through_witness :
  bringToLife (Some (lit "k")) page_service (lit "a clock") None None
  = Returns (lit "<p>v2</p>").
Proof.
  apply (proj1 (@clean_answer_passes_through page_service
                  (lit "k") (lit "<p>v2</p>") (lit "a clock") []
                  None None ltac:(discriminate) ltac:(discriminate) eq_refl)).
  reflexivity.
Defined.


(** ** What a handler run leaves behind *)




(** A creation whose page is no string can be revised like any other
    when the service answers with a page; when it answers without text
    the call throws, and the creation stays as it is. *)
Example revise_page_that_is_no_string :
  let odd := {| id := str (lit "a"); name := Some (JArr [JStr (lit "X"); JNull; JBool true]);
                html := Some (JBool true); originalImage := None;
                timestamp := Some 0%Z |} in
  let silent : remote := fun _ _ => Returns None in
  let s := session [odd] (Some odd) in
  option_map name (activeCreation (handleUpdate sample_env page_service (lit "x") s))
  = Some (str (lit "X,,true (v2)"))
  /\ activeCreation (handleUpdate sample_env silent (lit "x") s) = Some odd
  /\ alerts (handleUpdate sample_env silent (lit "x") s) = [MsgGenerationProblem].
Proof. repeat split. Qed.

(** ** Invariants of the history *)

Section HistoryInvariants.

Variable svc : remote.

(** How one handler run can change the history. *)
Lemma step_history env ev s :
  let s' := step env svc ev s in
  history s' = history s
  \/ (exists c, truthy_json (html c) = true
                /\ (id c = str (randomUUID env)
                    \/ existsb (fun x => strict_eq (id x) (id c))
                               (history s) = false)
                /\ history s' = prependCapped c (history s))
  \/ (exists id0, history s'
                  = filter (fun item => negb (strict_eq (id item) (str id0)))
                           (history s)).
Proof.
  cbn zeta. destruct ev; cbn [step].
  - destruct (handleGenerate_cases env svc promptText file s) as [_ [H | H]].
    + left. apply H.
    + right; left. destruct H as (c & _ & Hh & Hid & (page & Hp & Hne) & _).
      exists c. split; [rewrite Hp; now apply truthy_nonempty|].
      split; [now left | exact Hh].
  - destruct (activeCreation s) as [a|] eqn:Ha.
    + destruct (handleUpdate_cases env svc prompt s Ha) as [_ [H | H]].
      * left. apply H.
      * right; left. destruct H as (newName & newHtml & Hne & _ & _ & Hh).
        exists (updatedCreation env a newName newHtml).
        split; [now apply truthy_nonempty|]. split; [now left | exact Hh].
    + left. unfold handleUpdate, handleUpdate_begin. now rewrite Ha.
  - right; right. exists id0. apply history_handleDeleteCreation.
  - destruct (handleImportFile_cases env r s)
      as [[m ->] | (fields & _ & Hp & _ & ->)].
    + now left.
    + rewrite history_import_accepted. unfold importInto.
      destruct (existsb _ (history s)) eqn:He; [now left|].
      right; left. exists (importedCreation env fields).
      split; [exact Hp|]. split; [now right | reflexivity].
  - now left.
  - now left.
Qed.

Lemma In_firstn (A : Type) (n : nat) (l : list A) (x : A) :
  In x (firstn n l) -> In x l.
Proof.
  intros H. rewrite <- (firstn_skipn n l). apply in_or_app. now left.
Qed.

Lemma ForallOrdPairs_firstn (A : Type) (R : A -> A -> Prop) n (l : list A) :
  ForallOrdPairs R l -> ForallOrdPairs R (firstn n l).
Proof.
  revert n. induction l as [|x l IH]; intros [|n] H; cbn [firstn];
    try constructor.
  - inversion H as [|a l0 Hx Hl]; subst.
    apply Forall_forall. intros y Hy. apply In_firstn in Hy.
    revert y Hy. now apply Forall_forall.
  - inversion H; subst. now apply IH.
Qed.

Lemma ForallOrdPairs_filter (A : Type) (R : A -> A -> Prop) p (l : list A) :
  ForallOrdPairs R l -> ForallOrdPairs R (filter p l).
Proof.
  induction l as [|x l IH]; intros H; cbn [filter]; [constructor|].
  inversion H as [|a l0 Hx Hl]; subst.
  destruct (p x); [|now apply IH].
  constructor; [|now apply IH].
  apply Forall_forall. intros y Hy. apply filter_In in Hy as [Hy _].
  revert y Hy. now apply Forall_forall.
Qed.

Lemma step_bound env ev s :
  List.length (history s) <= 30 ->
  List.length (history (step env svc ev s)) <= 30.
Proof.
  intros Hb.
  destruct (step_history env ev s) as [-> | [(c & _ & _ & ->) | (id0 & ->)]].
  - exact Hb.
  - apply length_prependCapped.
  - eapply Nat.le_trans; [apply filter_length_le | exact Hb].
Qed.

Lemma step_pages env ev s :
  pages_truthy s -> pages_truthy (step env svc ev s).
Proof.
  unfold pages_truthy. intros Hp.
  destruct (step_history env ev s) as [-> | [(c & Hc & _ & ->) | (id0 & ->)]].
  - exact Hp.
  - unfold prependCapped. apply Forall_forall. intros x Hx.
    apply In_firstn in Hx. destruct Hx as [<- | Hx]; [exact Hc|].
    revert x Hx. now apply Forall_forall.
  - apply Forall_forall. intros x Hx. apply filter_In in Hx as [Hx _].
    revert x Hx. now apply Forall_forall.
Qed.

Lemma step_ids env ev s :
  (forall x, In x (history s) -> id x <> str (randomUUID env)) ->
  ids_unique s -> ids_unique (step env svc ev s).
Proof.
  unfold ids_unique. intros Hfresh Hu.
  destruct (step_history env ev s)
    as [-> | [(c & _ & Hid & ->) | (id0 & ->)]].
  - exact Hu.
  - unfold prependCapped. apply ForallOrdPairs_firstn.
    constructor; [|exact Hu].
    apply Forall_forall. intros x Hx. rewrite strict_eq_sym.
    destruct Hid as [-> | He].
    + apply strict_eq_str_false. now apply Hfresh.
    + destruct (strict_eq (id x) (id c)) eqn:E; [|reflexivity].
      assert (T : existsb (fun x => strict_eq (id x) (id c)) (history s) = true)
        by (apply existsb_exists; now exists x).
      congruence.
  - now apply ForallOrdPairs_filter.
Qed.

(** X7.  Over a whole session the history never grows past 30 records
    once it is within 30, whatever the handlers are given: generations,
    revisions, imports of any document, removals, selections, resets,
    with services that answer or throw. *)
Theorem session_keeps_history_within_cap
  (evs : list (Env * event)) (s : state) :
  List.length (history s) <= 30 ->
  List.length (history (sessionRun svc evs s)) <= 30.
Proof.
  revert s; induction evs as [|[env ev] evs IH]; intros s Hb; [exact Hb|].
  cbn [sessionRun]. apply IH. now apply step_bound.
Qed.

(** X8.  Over a whole session every record of the history has a page
    that is truthy, once that is so: no handler puts a record into the
    history whose page is missing, the empty string or another falsy
    value.  (A page that is no string, such as an array, is truthy and is
    taken as it is.) *)
Theorem session_keeps_pages_truthy
  (evs : list (Env * event)) (s : state) :
  pages_truthy s -> pages_truthy (sessionRun svc evs s).
Proof.
  revert s; induction evs as [|[env ev] evs IH]; intros s Hp; [exact Hp|].
  cbn [sessionRun]. apply IH. now apply step_pages.
Qed.

(** What the invariant says of two records at different places of the
    history. *)
Lemma ids_unique_nth s i j a b :
  ids_unique s -> i < j ->
  nth_error (history s) i = Some a -> nth_error (history s) j = Some b ->
  strict_eq (id a) (id b) = false /\ strict_eq (id b) (id a) = false.
Proof.
  unfold ids_unique. intros Hu.
  revert i j a b. induction Hu as [|x l Hx Hl IH]; intros i j a b Hij Ha Hb.
  - destruct i; discriminate Ha.
  - destruct j as [|j]; [lia|]. cbn [nth_error] in Hb.
    destruct i as [|i].
    + injection Ha as <-.
      assert (E : strict_eq (id x) (id b) = false).
      { apply nth_error_In in Hb. revert b Hb. now apply Forall_forall. }
      split; [exact E | now rewrite strict_eq_sym].
    + cbn [nth_error] in Ha. apply (IH i j); [lia | exact Ha | exact Hb].
Qed.

(** X9.  One handler run keeps the ids of the history pairwise distinct
    (under [===]), provided the id the platform draws for this run is not
    the id of a record already there.  (An import needs no such luck for
    an id the document brings: it is checked against the history.) *)
Theorem step_keeps_ids_unique
  (env : Env) (ev : event) (s : state) :
  (forall x, In x (history s) -> id x <> str (randomUUID env)) ->
  ids_unique s -> ids_unique (step env svc ev s).
Proof. apply step_ids. Qed.

End HistoryInvariants.

Lemma session_keeps_history_within_cap_witness :
  let doc := [ (lit "name", JStr (lit "X")); (lit "html", JArr []) ] in
  let evs := [ (sample_env, Generate (lit "a clock") None);
               (sample_env, ImportFile (Parsed (JObj doc)));
               (sample_env, Delete [3%N]);
               (other_env, Update (lit "make it blue")) ] in
  List.length (history (sessionRun page_service evs (session thirty None))) <= 30.
Proof.
  intros doc evs.
  apply (@session_keeps_history_within_cap page_service evs
           (session thirty None)).
  cbn. lia.
Defined.

Lemma session_keeps_pages_truthy_witness :
  let doc := [ (lit "name", JStr (lit "X")); (lit "html", JArr []) ] in
  let evs := [ (sample_env, Generate (lit "a clock") None);
               (other_env, ImportFile (Parsed (JObj doc)));
               (sample_env, Delete [1%N]) ] in
  pages_truthy (sessionRun page_service evs (session [sample 1; sample 2] None)).
Proof.
  intros doc evs.
  apply (@session_keeps_pages_truthy page_service evs
           (session [sample 1; sample 2] None)).
  repeat constructor.
Defined.

Lemma step_keeps_ids_unique_witness :
  let s := session [sample 1; sample 2] None in
  ids_unique (handleGenerate sample_env page_service (lit "a clock") None s).
Proof.
  intros s.
  apply (@step_keeps_ids_unique page_service sample_env
           (Generate (lit "a clock") None) s).
  - intros x [<- | [<- | []]]; discriminate.
  - repeat constructor.
Defined.

(** ** Removal, import and start-up *)

Section StoreMore.

Variable env : Env.


(** X11.  A document with a page and a name that are not empty, and
    with no id, no image and no timestamp of its own, is imported as a
    record with the id the platform draws and the current time; when no
    record has that id yet, the record goes to the head of the history,
    capped at 30, and becomes the active creation. *)
Theorem import_fills_in_id_and_time
  (fields : list (jsstring * json)) (h n : jsstring) (s : state) :
  lookup (lit "html") fields = Some (JStr h) ->
  lookup (lit "name") fields = Some (JStr n) ->
  h <> [] -> n <> [] ->
  lookup (lit "id") fields = None ->
  lookup (lit "originalImage") fields = None ->
  lookup (lit "timestamp") fields = None ->
  existsb (fun x => strict_eq (id x) (str (randomUUID env))) (history s) = false ->
  let c := {| id := str (randomUUID env); name := str n; html := str h;
              originalImage := None; timestamp := now env |} in
  exists s',
    handleImportFile env (Parsed (JObj fields)) s = s'
    /\ activeCreation s' = Some c
    /\ history s' = prependCapped c (history s).
Proof.
  intros Hh Hn Hhne Hnne Hid Himg Hts Hfresh c.
  assert (Hc : importedCreation env fields = c).
  { unfold importedCreation. now rewrite Hh, Hn, Hid, Himg, Hts. }
  eexists. split; [reflexivity|].
  rewrite handleImportFile_accepted;
    [| rewrite Hh; now apply truthy_nonempty
     | rewrite Hn; now apply truthy_nonempty].
  rewrite Hc. split; [reflexivity|].
  rewrite history_import_accepted. unfold importInto.
  change (id c) with (str (randomUUID env)). now rewrite Hfresh.
Qed.

Lemma importInto_has_id c h :
  strict_eq (id c) (id c) = true ->
  existsb (fun x => strict_eq (id x) (id c)) (importInto c h) = true.
Proof.
  intros Hrefl. unfold importInto.
  destruct (existsb _ h) eqn:He; [exact He|].
  cbn [MAX_HISTORY_ITEMS firstn existsb]. now rewrite Hrefl.
Qed.

(** X12.  Importing a document a second time changes nothing in the
    history or its persisted entry, whenever the document carries an id
    of its own (a string that is not empty): after the first import a
    record with that id is there, accepted or found, and the second
    import finds it. *)
Theorem import_twice_is_import_once
  (env2 : Env) (v : json) (i : jsstring) (s : state) :
  field v (lit "id") = Some (JStr i) -> i <> [] ->
  let s1 := handleImportFile env (Parsed v) s in
  let s2 := handleImportFile env2 (Parsed v) s1 in
  history s2 = history s1
  /\ gemini_app_history s2 = gemini_app_history s1.
Proof.
  intros Hid Hne. cbn zeta.
  destruct v as [| | | | |fields]; try discriminate Hid.
  change (lookup (lit "id") fields = Some (JStr i)) in Hid.
  assert (I : forall e, id (importedCreation e fields) = str i).
  { intros e. unfold importedCreation. cbn [id]. rewrite Hid.
    cbn [truthy_json]. now rewrite truthy_nonempty. }
  destruct (truthy_json (lookup (lit "html") fields)) eqn:Hh;
    [destruct (truthy_json (lookup (lit "name") fields)) eqn:Hn|].
  - set (s1 := handleImportFile env (Parsed (JObj fields)) s).
    assert (Hs1 : history s1
                  = importInto (importedCreation env fields) (history s)).
    { subst s1. rewrite (handleImportFile_accepted env fields s Hh Hn).
      apply history_import_accepted. }
    rewrite (handleImportFile_accepted env2 fields s1 Hh Hn).
    assert (E : existsb
                  (fun x => strict_eq (id x) (id (importedCreation env2 fields)))
                  (history s1) = true).
    { rewrite Hs1, (I env2), <- (I env). apply importInto_has_id.
      rewrite (I env). apply strict_eq_str_refl. }
    rewrite E. split; reflexivity.
  - rewrite !handleImportFile_falsy; try discriminate; try (now right).
    split; reflexivity.
  - rewrite !handleImportFile_falsy; try discriminate; try (now left).
    split; reflexivity.
Qed.






(** X14.  A record that was removed comes back by importing its
    exported document: with an id, a name and a page that are not empty,
    the import after the removal is accepted, puts the record (its date
    read back) at the head of what the removal left, capped at 30, and
    makes it the active creation. *)
Theorem removed_record_comes_back_by_import
  (c : Creation) (i n h : jsstring) (s : state) :
  id c = str i -> name c = str n -> html c = str h ->
  i <> [] -> n <> [] -> h <> [] ->
  let s1 := handleDeleteCreation env i s in
  exists s2,
    handleImportFile env (Parsed (creationJSON env c)) s1 = s2
    /\ activeCreation s2 = Some (reimported env c)
    /\ history s2 = prependCapped (reimported env c) (history s1).
Proof.
  intros Hid Hname Hhtml Hi Hn Hh s1.
  assert (Hgone : existsb (fun x => strict_eq (id x) (id (reimported env c)))
                          (history s1) = false).
  { subst s1. rewrite history_handleDeleteCreation.
    destruct (existsb _ _) eqn:He; [|reflexivity].
    apply existsb_exists in He as (x & Hx & Heq).
    apply filter_In in Hx as [_ Hx].
    cbn [id reimported] in Heq. rewrite Hid in Heq. rewrite Heq in Hx.
    discriminate Hx. }
  destruct (creationJSON env c) as [| | | | |fields] eqn:Hdoc;
    try discriminate Hdoc.
  destruct (importedCreation_creationJSON Hdoc Hid Hname Hhtml Hi)
    as (Lh & Ln & Hc).
  eexists. split; [reflexivity|].
  rewrite handleImportFile_accepted;
    [| rewrite Lh; now apply truthy_nonempty
     | rewrite Ln; now apply truthy_nonempty].
  rewrite Hc. split; [reflexivity|].
  rewrite history_import_accepted. unfold importInto. now rewrite Hgone.
Qed.

End StoreMore.

Lemma import_fills_in_id_and_time_witness :
  let fields := [(lit "name", JStr (lit "X")); (lit "html", JStr (lit "<p>hi</p>"))] in
  exists s',
    handleImportFile sample_env (Parsed (JObj fields)) (session [sample 1] None)
    = s'
    /\ option_map id (activeCreation s') = Some (str (lit "new-id"))
    /\ List.length (history s') = 2.
Proof.
  intros fields.
  destruct (@import_fills_in_id_and_time sample_env fields
              (lit "<p>hi</p>") (lit "X") (session [sample 1] None))
    as (s' & H1 & H2 & H3); try reflexivity; try discriminate.
  exists s'. split; [exact H1|]. split; [now rewrite H2 | now rewrite H3].
Defined.

Lemma import_twice_is_import_once_witness :
  let v := JObj (document (lit "a")) in
  let s1 := handleImportFile sample_env (Parsed v) (session [sample 1] None) in
  let s2 := handleImportFile full_storage_env (Parsed v) s1 in
  List.length (history s1) = 2 /\ history s2 = history s1.
Proof.
  intros v s1 s2. split; [reflexivity|].
  apply (@import_twice_is_import_once sample_env full_storage_env v (lit "a")
           (session [sample 1] None)); [reflexivity | discriminate].
Defined.


Lemma removed_record_comes_back_by_import_witness :
  let s1 := handleDeleteCreation sample_env [2%N]
              (session [sample 1; sample 2] None) in
  exists s2,
    handleImportFile sample_env (Parsed (creationJSON sample_env (sample 2))) s1
    = s2
    /\ map id (history s2) = [str [2%N]; str [1%N]].
Proof.
  intros s1.
  destruct (@removed_record_comes_back_by_import sample_env (sample 2)
              [2%N] (lit "X") (lit "<p>hi</p>")
              (session [sample 1; sample 2] None))
    as (s2 & H1 & _ & H3); try discriminate; try reflexivity.
  exists s2. split; [exact H1|]. now rewrite H3.
Defined.

(** ** The cap at work *)

Section Capacity.

(** X15.  Adding to a history of exactly 30 records keeps 30: the new
    record comes first, the 29 most recent follow in their order, and the
    oldest record, the last of the list, is the one dropped.  Adding to a
    history of fewer than 30 drops nothing. *)
Theorem add_at_capacity_drops_the_oldest (c : Creation) (h : list Creation) :
  (List.length h = 30 ->
   prependCapped c h = c :: removelast h
   /\ List.length (prependCapped c h) = 30)
  /\ (List.length h < 30 -> prependCapped c h = c :: h).
Proof.
  split.
  - intros Hlen. rewrite prependCapped_cons.
    assert (E : firstn (MAX_HISTORY_ITEMS - 1) h = removelast h).
    { rewrite removelast_firstn_len, Hlen. reflexivity. }
    rewrite E. split; [reflexivity|].
    cbn [List.length]. rewrite <- E, length_firstn, Hlen. reflexivity.
  - intros Hlen. rewrite prependCapped_cons.
    rewrite firstn_all2; [reflexivity|].
    unfold MAX_HISTORY_ITEMS. lia.
Qed.

End Capacity.

Lemma add_at_capacity_drops_the_oldest_witness :
  prependCapped (sample 99) thirty = sample 99 :: removelast thirty
  /\ prependCapped (sample 99) [sample 1] = [sample 99; sample 1].
Proof.
  destruct (@add_at_capacity_drops_the_oldest (sample 99) thirty) as [H1 _].
  destruct (@add_at_capacity_drops_the_oldest (sample 99) [sample 1]) as [_ H2].
  split; [apply H1; reflexivity | apply H2; cbn; lia].
Defined.



(** ** Keys, the preview and the history strip *)

Section TrimFacts.

Lemma skip_ws_nil_blank s : skip_ws s = [] -> blank s = true.
Proof.
  unfold blank. induction s as [|x s IH]; [reflexivity|].
  cbn [skip_ws forallb]. destruct (is_space x); [exact IH | discriminate].
Qed.

Lemma blank_skip_ws s : blank s = true -> skip_ws s = [].
Proof.
  unfold blank. induction s as [|x s IH]; [reflexivity|].
  cbn [skip_ws forallb]. intros H. apply andb_true_iff in H as [Hx Hs].
  rewrite Hx. now apply IH.
Qed.

Lemma blank_rev s : blank (rev s) = blank s.
Proof.
  unfold blank. induction s as [|x s IH]; [reflexivity|].
  cbn [rev forallb]. rewrite forallb_app, IH. cbn [forallb].
  rewrite andb_true_r. apply andb_comm.
Qed.

Lemma skip_ws_blank_iff s : blank (skip_ws s) = blank s.
Proof.
  unfold blank. induction s as [|x s IH]; [reflexivity|].
  cbn [skip_ws]. destruct (is_space x) eqn:Hx.
  - cbn [forallb]. now rewrite Hx, IH.
  - reflexivity.
Qed.

(** [trim] gives the empty string exactly on blank texts. *)
Lemma trim_nil_iff s : trim s = [] <-> blank s = true.
Proof.
  unfold trim. split.
  - intros H. apply (f_equal (@rev N)) in H.
    rewrite rev_involutive in H. cbn [rev] in H.
    apply skip_ws_nil_blank in H.
    now rewrite blank_rev, skip_ws_blank_iff in H.
  - intros H.
    rewrite (blank_skip_ws s H). reflexivity.
Qed.

Lemma skip_ws_no_leading_space s : no_leading_space (skip_ws s) = true.
Proof.
  induction s as [|x s IH]; [reflexivity|].
  cbn [skip_ws]. destruct (is_space x) eqn:Hx; [exact IH|].
  cbn [no_leading_space]. now rewrite Hx.
Qed.

Lemma firstn_no_leading_space n s :
  no_leading_space s = true -> no_leading_space (firstn n s) = true.
Proof. destruct n, s; auto. Qed.

(** What [trim] returns neither begins nor ends with white space. *)
Lemma trim_clean s :
  no_leading_space (trim s) = true
  /\ no_leading_space (rev (trim s)) = true.
Proof.
  unfold trim. split.
  - destruct (skip_ws_tail (rev (skip_ws s))) as [k Hk].
    rewrite Hk.
    assert (E : forall (l : list N),
               rev (skipn k l) = firstn (List.length l - k) (rev l)).
    { intros l. rewrite <- (rev_involutive l) at 1.
      rewrite skipn_rev, rev_involutive, length_rev. reflexivity. }
    rewrite E, rev_involutive. apply firstn_no_leading_space.
    apply skip_ws_no_leading_space.
  - rewrite rev_involutive. apply skip_ws_no_leading_space.
Qed.

End TrimFacts.

Section KeyHandling.

Variables (env : Env) (svc : remote) (test : probe).

(** X17.  The connection check touches neither the history, the active
    creation nor the stored key.  Without a stored key the status is idle
    and the key dialog is opened; with one the dialog is left alone and
    the status ends valid exactly when the test call returns, invalid
    exactly when it throws. *)
Theorem connection_check_outcome (s : state) :
  let s' := checkApiConnection test s in
  history s' = history s
  /\ activeCreation s' = activeCreation s
  /\ user_gemini_api_key s' = user_gemini_api_key s
  /\ (truthy_opt (user_gemini_api_key s) = false ->
      apiStatus s' = idle /\ isApiKeyModalOpen s' = true)
  /\ (forall key, user_gemini_api_key s = Some key -> key <> [] ->
      isApiKeyModalOpen s' = isApiKeyModalOpen s
      /\ (apiStatus s' = valid <-> exists r, test key = Returns r)
      /\ (apiStatus s' = invalid <-> exists e, test key = Throws e)).
Proof.
  cbn zeta. unfold checkApiConnection.
  destruct (user_gemini_api_key s) as [[|k ks]|] eqn:Hkey;
    (split; [reflexivity|]); (split; [reflexivity|]);
    (split; [cbn; now rewrite ?Hkey|]); split;
    try (intros _; split; reflexivity); try discriminate.
  - intros key [= <-] Hne. contradiction.
  - intros key [= <-] _. split; [reflexivity|].
    unfold validateApiKey. cbn [apiStatus setApiStatus].
    destruct (test (k :: ks)) as [r|e]; split; split;
      try discriminate; try (intros [x Hx]; discriminate Hx);
      intros _; eexists; reflexivity.
Qed.

(** X18.  Saving a key: a text that is blank is ignored, the state stays
    as it is.  Otherwise, with a storage that takes the write, the key
    stored is the text without the white space around it, so the
    generation client finds a key and does not throw API_KEY_MISSING; the
    dialog is closed and the status is the one of the connection check. *)
Theorem saving_a_key (input : jsstring) (s : state) :
  let s' := handleSave env test input s in
  (blank input = true -> s' = s)
  /\ (blank input = false -> setItem_succeeds env = true ->
      user_gemini_api_key s' = Some (trim input)
      /\ getGenAIClient (user_gemini_api_key s') = Returns (trim input)
      /\ no_leading_space (trim input) = true
      /\ no_leading_space (rev (trim input)) = true
      /\ isApiKeyModalOpen s' = false
      /\ (apiStatus s' = valid \/ apiStatus s' = invalid)).
Proof.
  cbn zeta. unfold handleSave. split.
  - intros Hb. apply trim_nil_iff in Hb. now rewrite Hb.
  - intros Hb Hok. rewrite Hok.
    destruct (trim input) as [|k ks] eqn:Ht.
    + apply trim_nil_iff in Ht. congruence.
    + destruct (trim_clean input) as [C1 C2]. rewrite Ht in C1, C2.
      unfold handleApiKeySaved, checkApiConnection.
      cbn [user_gemini_api_key storeKey setIsApiKeyModalOpen].
      repeat split; try reflexivity; try assumption.
      cbn [apiStatus setApiStatus].
      destruct (validateApiKey test (k :: ks)); [now left | now right].
Qed.

(** X19.  Once the stored key is cleared, a generation whose file (if
    any) can be read makes no record whatever the service would answer:
    the history, its entry and the alerts stay as they were, nothing is
    active, the generating flag is off, and the key dialog is open.  A
    revision likewise keeps the active creation and the history and opens
    the dialog. *)
Theorem cleared_key_blocks_generation
  (prompt : jsstring) (file : option File) (s : state) :
  readable file ->
  let s' := handleGenerate env svc prompt file (handleClear s) in
  (history s' = history s
   /\ gemini_app_history s' = gemini_app_history s
   /\ alerts s' = alerts s
   /\ activeCreation s' = None
   /\ isGenerating s' = false
   /\ isApiKeyModalOpen s' = true)
  /\ (forall c, activeCreation s = Some c ->
      let s2 := handleUpdate env svc prompt (handleClear s) in
      activeCreation s2 = Some c
      /\ history s2 = history s
      /\ isGenerating s2 = false
      /\ isApiKeyModalOpen s2 = true).
Proof.
  intros Hr. cbn zeta. split.
  - unfold handleGenerate, handleGenerate_end, handleClear.
    destruct file as [f|].
    + destruct Hr as [b Hb]. rewrite Hb. repeat split.
    + repeat split.
  - intros c Ha. unfold handleUpdate, handleUpdate_begin, handleClear.
    cbn [activeCreation storeKey]. rewrite Ha.
    unfold handleUpdate_end.
    assert (E : updateCode_untyped
                  (user_gemini_api_key
                     (setIsGenerating true (storeKey None s)))
                  svc (html c) prompt = Throws API_KEY_MISSING)
      by (destruct (html c) as [[| | | | |]|]; reflexivity).
    rewrite E. cbn. now rewrite Ha.
Qed.

(** X20.  The revise box sends nothing for a blank prompt: the state is
    untouched and the service is not called.  A prompt that is not blank
    is handed to [handleUpdate] as typed, white space around it
    included. *)
Theorem blank_revision_prompt_is_not_sent (updatePrompt : jsstring) (s : state) :
  (blank updatePrompt = true ->
   handleUpdateSubmit env svc updatePrompt s = s)
  /\ (blank updatePrompt = false ->
      handleUpdateSubmit env svc updatePrompt s
      = handleUpdate env svc updatePrompt s).
Proof.
  unfold handleUpdateSubmit. split; intros Hb.
  - apply trim_nil_iff in Hb. now rewrite Hb.
  - destruct (trim updatePrompt) eqn:Ht; [|reflexivity].
    apply trim_nil_iff in Ht. congruence.
Qed.

End KeyHandling.

Lemma connection_check_outcome_witness :
  let rejecting : probe :=
    fun _ => Throws {| message := lit "403"; rendering := lit "Error: 403" |} in
  apiStatus (checkApiConnection rejecting (session [] None)) = invalid
  /\ apiStatus (checkApiConnection rejecting (initial None None)) = idle.
Proof.
  intros rejecting.
  destruct (@connection_check_outcome rejecting (session [] None))
    as (_ & _ & _ & _ & H).
  destruct (@connection_check_outcome rejecting (initial None None))
    as (_ & _ & _ & H0 & _).
  split.
  - destruct (H (lit "k") eq_refl ltac:(discriminate)) as (_ & _ & [_ Hi]).
    apply Hi. eexists. reflexivity.
  - apply H0. reflexivity.
Defined.

Lemma saving_a_key_witness :
  let test : probe := fun _ => Returns None in
  let s' := handleSave sample_env test (lit "  AIzaSy-key ") (initial None None) in
  user_gemini_api_key s' = Some (lit "AIzaSy-key")
  /\ handleSave sample_env test (lit "   ") (initial None None)
     = initial None None.
Proof.
  intros test s'.
  destruct (@saving_a_key sample_env test (lit "  AIzaSy-key ") (initial None None))
    as [_ H].
  destruct (@saving_a_key sample_env test (lit "   ") (initial None None))
    as [H0 _].
  split; [|apply H0; reflexivity].
  destruct (H eq_refl eq_refl) as (H1 & _). exact H1.
Defined.

Lemma cleared_key_blocks_generation_witness :
  let s := session [sample 1] (Some (sample 1)) in
  let s' := handleGenerate sample_env page_service (lit "a clock") None
              (handleClear s) in
  history s' = [sample 1] /\ isApiKeyModalOpen s' = true.
Proof.
  intros s s'.
  destruct (@cleared_key_blocks_generation sample_env page_service
              (lit "a clock") None s I) as [(H1 & _ & _ & _ & _ & H6) _].
  split; [exact H1 | exact H6].
Defined.

Lemma blank_revision_prompt_is_not_sent_witness :
  let s := session [sample 1] (Some (sample 1)) in
  handleUpdateSubmit sample_env page_service [32; 10; 9]%N s = s.
Proof.
  intros s.
  apply (proj1 (@blank_revision_prompt_is_not_sent sample_env page_service
                  [32; 10; 9]%N s)).
  reflexivity.
Defined.

Section PreviewFacts.

Ltac units :=
  repeat match goal with
         | |- context [N.leb ?a ?b] => destruct (N.leb_spec a b)
         | |- context [N.eqb ?a ?b] => destruct (N.eqb_spec a b)
         end;
  cbn [andb orb negb] in *; try reflexivity; try lia.

Lemma export_unit_safe (x : N) :
  safe_unit
    (let y := if is_alnum x then x else 95%N in
     if (N.leb 65 y && N.leb y 90)%bool then (y + 32)%N else y) = true.
Proof.
  cbn zeta. unfold is_alnum.
  destruct (N.leb_spec 48 x); destruct (N.leb_spec x 57);
    destruct (N.leb_spec 65 x); destruct (N.leb_spec x 90);
    destruct (N.leb_spec 97 x); destruct (N.leb_spec x 122);
    cbn [andb orb]; try lia; unfold safe_unit; units.
Qed.

Lemma export_unit_fixed (x : N) :
  safe_unit x = true ->
  (let y := if is_alnum x then x else 95%N in
   if (N.leb 65 y && N.leb y 90)%bool then (y + 32)%N else y) = x.
Proof.
  cbn zeta. unfold safe_unit, is_alnum.
  destruct (N.leb_spec 48 x); destruct (N.leb_spec x 57);
    destruct (N.leb_spec 65 x); destruct (N.leb_spec x 90);
    destruct (N.leb_spec 97 x); destruct (N.leb_spec x 122);
    destruct (N.eqb_spec x 95);
    cbn [andb orb]; try lia; try discriminate; intros _; subst; units.
Qed.

(** X21.  The name of the exported file is a stem followed by
    "_artifact.json"; the stem has as many code units as the creation's
    name, each one a lower-case ASCII letter, a digit or an underscore;
    a name already made of such characters is its own stem.  A name that
    is no string gives no file name, and then nothing is exported. *)
Theorem export_file_name_is_safe (env : Env) (c : Creation) :
  match name c with
  | Some (JStr n) =>
      exists stem,
        exportFileName c = Some (stem ++ lit "_artifact.json")
        /\ List.length stem = List.length n
        /\ forallb safe_unit stem = true
        /\ (forallb safe_unit n = true -> stem = n)
  | _ => exportFileName c = None /\ handleExport env (Some c) = None
  end.
Proof.
  unfold handleExport, exportFileName.
  destruct (name c) as [[| b | f | n | items | fields]|];
    try (split; reflexivity).
  exists (toLowerCase (replace_non_alnum n)).
  split; [reflexivity|].
  unfold toLowerCase, replace_non_alnum. rewrite map_map.
  split; [apply length_map|]. split.
  - induction n as [|x l IH]; [reflexivity|].
    cbn [map forallb]. rewrite IH, andb_true_r. apply export_unit_safe.
  - induction n as [|x l IH]; [reflexivity|].
    cbn [map forallb]. intros H. apply andb_true_iff in H as [Hx Hl].
    f_equal; [now apply export_unit_fixed | now apply IH].
Qed.

(** X22.  The loading animation shows step [min n 3] after [n] ticks:
    it advances one step per tick and stays on the fourth step. *)
Theorem loading_step_stops_at_three (n : nat) :
  loadingStepAfter n = Nat.min n 3.
Proof.
  unfold loadingStepAfter. induction n as [|n IH]; [reflexivity|].
  rewrite Nat.iter_succ, IH. unfold loadingTick.
  destruct (Nat.ltb_spec (Nat.min n 3) 3); lia.
Qed.

(** X23.  What the login form does: it authenticates exactly for the
    user name "canton09" with the password "WW810922"; every other pair
    leaves the authentication as it was, keeps the user name, and shows
    the access-denied message; the password field is emptied either
    way. *)
Theorem login_accepts_one_pair (a : Auth) :
  let a' := handleLogin a in
  password a' = []
  /\ (username a = lit "canton09" /\ password a = lit "WW810922" ->
      isAuthenticated a' = true /\ showLogin a' = false /\ authError a' = [])
  /\ (~ (username a = lit "canton09" /\ password a = lit "WW810922") ->
      isAuthenticated a' = isAuthenticated a
      /\ username a' = username a
      /\ authError a' = ACCESS_DENIED).
Proof.
  cbn zeta. unfold handleLogin.
  destruct (JsString.eqb (username a) (lit "canton09")) eqn:Hu;
    destruct (JsString.eqb (password a) (lit "WW810922")) eqn:Hp;
    cbn [andb];
    (split; [reflexivity|]); split;
    try (intros _; repeat split; reflexivity).
  - apply jsstring_eqb_eq in Hu, Hp. intros H. now contradiction H.
  - apply jsstring_eqb_neq in Hp. intros [_ H]. contradiction.
  - apply jsstring_eqb_neq in Hu. intros [H _]. contradiction.
  - apply jsstring_eqb_neq in Hu. intros [H _]. contradiction.
Qed.

End PreviewFacts.

(** The default name has no ASCII letter or digit: the file is named
    by three underscores. *)
Example export_file_name_of_default_name :
  exportFileName (newCreation sample_env None None None (lit "<p>hi</p>"))
  = Some (lit "____artifact.json").
Proof. reflexivity. Qed.

Lemma login_accepts_one_pair_witness :
  let a := {| isAuthenticated := false; showLogin := true;
              username := lit "canton09"; password := lit "WW810922";
              authError := [] |} in
  let b := {| isAuthenticated := false; showLogin := true;
              username := lit "canton09"; password := lit "ww810922";
              authError := [] |} in
  isAuthenticated (handleLogin a) = true
  /\ isAuthenticated (handleLogin b) = false.
Proof.
  intros a b.
  destruct (@login_accepts_one_pair a) as (_ & Ha & _).
  destruct (@login_accepts_one_pair b) as (_ & _ & Hb).
  split.
  - apply Ha. split; reflexivity.
  - apply Hb. intros [_ H]. discriminate H.
Defined.

Section StripFacts.

Variable env : Env.

Lemma starts_with_app_other p m x r :
  ~ In x p -> starts_with p (m ++ x :: r) = starts_with p m.
Proof.
  revert m; induction p as [|c p IH]; intros m Hx; [reflexivity|].
  destruct m as [|y m].
  - cbn [app starts_with].
    destruct (N.eqb_spec x c) as [->|_]; [|reflexivity].
    exfalso. apply Hx. now left.
  - cbn [app starts_with]. rewrite IH; [reflexivity|].
    intros H. apply Hx. now right.
Qed.

(** X24.  The icon of a card follows the upload: a creation made from a
    file with a payload shows the document icon when the file's type
    starts with "application/pdf" and the photo icon for every other
    type; a creation made without a file shows the code icon; and a
    revision shows the icon of the creation it revises. *)
Theorem card_icon_follows_the_upload
  (file : option File) (b m h0 newName newHtml : jsstring) (c : Creation) :
  (b <> [] -> m <> [] ->
   cardIcon (newCreation env file (Some b) (Some m) h0)
   = Some (if starts_with (lit "application/pdf") m
           then DocumentIcon else PhotoIcon))
  /\ cardIcon (newCreation env file None None h0) = Some CodeBracketIcon
  /\ cardIcon (updatedCreation env c newName newHtml) = cardIcon c.
Proof.
  split; [|split; reflexivity].
  intros Hb Hm. destruct b as [|b0 b']; [contradiction|].
  destruct m as [|m0 m']; [contradiction|].
  unfold cardIcon, hasImage, isPdf.
  cbn [originalImage newCreation str].
  change (starts_with (lit "data:application/pdf")
            (lit "data:" ++ (m0 :: m') ++ lit ";base64," ++ b0 :: b'))
    with (starts_with (lit "application/pdf")
            ((m0 :: m') ++ 59%N :: (lit "base64," ++ b0 :: b'))).
  rewrite starts_with_app_other
    by (cbn; intuition discriminate).
  destruct (starts_with (lit "application/pdf") (m0 :: m')); reflexivity.
Qed.

Lemma split_on_lacks sep t :
  lacks_unit sep t = true -> split_on sep t = [t].
Proof.
  unfold lacks_unit. induction t as [|x t IH]; [reflexivity|].
  cbn [forallb split_on]. intros H. apply andb_true_iff in H as [Hx Ht].
  apply negb_true_iff in Hx. rewrite Hx, (IH Ht). reflexivity.
Qed.

Lemma split_on_app sep p q :
  lacks_unit sep p = true ->
  split_on sep (p ++ sep :: q) = p :: split_on sep q.
Proof.
  unfold lacks_unit. induction p as [|x p IH].
  - intros _. cbn [app split_on]. now rewrite N.eqb_refl.
  - cbn [forallb app split_on]. intros H.
    apply andb_true_iff in H as [Hx Hp].
    apply negb_true_iff in Hx. rewrite Hx, (IH Hp). reflexivity.
Qed.

(** X25.  The image stored with a creation gives back the payload it
    was made from: for a payload and a type that are not empty and hold
    no comma, [originalImage] is the data URL of the two, and what
    [fileToBase64] extracts from that URL is the payload. *)
Theorem stored_image_gives_back_the_payload
  (file : option File) (b m h0 : jsstring) :
  b <> [] -> m <> [] ->
  lacks_unit 44 m = true -> lacks_unit 44 b = true ->
  originalImage (newCreation env file (Some b) (Some m) h0)
  = str (dataUrl m b)
  /\ fileToBase64 (dataUrl m b) = Some b.
Proof.
  intros Hb Hm Lm Lb. split.
  - destruct b; [contradiction|]. destruct m; [contradiction|]. reflexivity.
  - unfold fileToBase64, dataUrl.
    change (lit "data:" ++ m ++ lit ";base64," ++ b)
      with (lit "data:" ++ (m ++ lit ";base64" ++ 44%N :: b)).
    replace (lit "data:" ++ (m ++ lit ";base64" ++ 44%N :: b))
      with ((lit "data:" ++ m ++ lit ";base64") ++ 44%N :: b)
      by (now rewrite <- !app_assoc).
    rewrite split_on_app, (split_on_lacks _ _ Lb); [reflexivity|].
    unfold lacks_unit in *. rewrite !forallb_app, Lm. reflexivity.
Qed.

End StripFacts.

Lemma card_icon_follows_the_upload_witness :
  cardIcon (newCreation sample_env None (Some (lit "JVBERi0="))
              (Some (lit "application/pdf")) (lit "<p>hi</p>"))
  = Some DocumentIcon
  /\ cardIcon (newCreation sample_env None (Some (lit "iVBORw0="))
                 (Some (lit "image/png")) (lit "<p>hi</p>"))
     = Some PhotoIcon.
Proof.
  split.
  - rewrite (proj1 (@card_icon_follows_the_upload sample_env None
               (lit "JVBERi0=") (lit "application/pdf") (lit "<p>hi</p>")
               [] [] (sample 1))); [reflexivity | discriminate | discriminate].
  - rewrite (proj1 (@card_icon_follows_the_upload sample_env None
               (lit "iVBORw0=") (lit "image/png") (lit "<p>hi</p>")
               [] [] (sample 1))); [reflexivity | discriminate | discriminate].
Defined.

Lemma stored_image_gives_back_the_payload_witness :
  fileToBase64 (dataUrl (lit "image/png") (lit "iVBORw0="))
  = Some (lit "iVBORw0=").
Proof.
  apply (@stored_image_gives_back_the_payload sample_env None
           (lit "iVBORw0=") (lit "image/png") (lit "<p>hi</p>"));
    try discriminate; reflexivity.
Defined.

Section Focus.

Variables (env : Env) (svc : remote).


End Focus.

